(** * Streaming response decoder of the aiyou Go SDK (stream.go)

    A shallow embedding of [streamReader.readEvent] and [processStream]
    together with the part of the Go runtime they call
    ([bufio.Reader.ReadBytes], [bytes.HasPrefix], [bytes.TrimPrefix],
    [bytes.TrimSpace], [json.Unmarshal]), and the properties of the
    Event Framer and of the Stream Aggregator. *)

From Stdlib Require Import Strings.String Strings.Byte.
From Stdlib Require Import List Bool Arith NArith ZArith Lia.
From Stdlib Require Import Floats.
Import ListNotations.
Local Open Scope list_scope.

Set Implicit Arguments.

(** ** Data model *)

(** A Go [[]byte]. *)
Definition bytes := list byte.

(** Byte-slice literal: [bs "data: "] is [[]byte("data: ")]. *)
Definition bs (s : string) : bytes := list_byte_of_string s.
Arguments bs s%_string.

(** Go [error] values that can reach the decoder.  [EOF] is [io.EOF],
    [ErrNoProgress] is [io.ErrNoProgress], [ErrStreamCorrupted] is the
    package's own sentinel (errors.go); every other error value a
    transport can return is [ErrTransport] with its message. *)
Inductive error : Type :=
| EOF
| ErrNoProgress
| ErrStreamCorrupted
| ErrTransport (msg : string).

Definition error_eqb (e1 e2 : error) : bool :=
  match e1, e2 with
  | EOF, EOF => true
  | ErrNoProgress, ErrNoProgress => true
  | ErrStreamCorrupted, ErrStreamCorrupted => true
  | ErrTransport m1, ErrTransport m2 => String.eqb m1 m2
  | _, _ => false
  end.

(** types.go: the JSON shape of one streamed chunk. *)
Record usage := mkUsage {
  PromptTokens : Z;
  CompletionTokens : Z;
  TotalTokens : Z
}.

Record delta := mkDelta {
  Role : string;
  Content : string
}.

Record streamChoice := mkStreamChoice {
  Index : Z;
  Delta : delta
}.

Record streamResponse := mkStreamResponse {
  Model : string;
  ID : string;
  Created : Z;
  Choices : list streamChoice;
  Usage : option usage
}.

(** options.go: only [Debug] is read by the decoder, and only to decide
    whether to write diagnostics to standard error. *)
Record Options := mkOptions {
  Debug : bool
}.

(** ** The Go runtime the decoder calls *)

(** [asciiSpace] of package bytes: tab, newline, vertical tab, form feed,
    carriage return and space. *)
Definition asciiSpace (c : byte) : bool :=
  match c with
  | x09 | x0a | x0b | x0c | x0d | x20 => true
  | _ => false
  end.

(** [c >= utf8.RuneSelf] *)
Definition nonASCII (c : byte) : bool := (128 <=? Byte.to_N c)%N.

(** The two library functions whose results are not determined by this
    repository: the Unicode-aware slow path of [bytes.TrimSpace]
    ([bytes.TrimFunc(s, unicode.IsSpace)]) and [json.Unmarshal] into a
    [streamResponse] ([None] when it returns an error).  The one fact used
    about the slow path is that it never trims an ASCII byte that is not
    white space at the head of its argument. *)
Class GoLib := {
  TrimFunc_IsSpace : bytes -> bytes;
  TrimFunc_IsSpace_head :
    forall c s, nonASCII c = false -> asciiSpace c = false ->
                TrimFunc_IsSpace (c :: s) <> [];
  json_Unmarshal : bytes -> option streamResponse
}.

(** [bytes.HasPrefix] *)
Fixpoint HasPrefix (s prefix : bytes) : bool :=
  match prefix, s with
  | [], _ => true
  | _ :: _, [] => false
  | p :: prefix', c :: s' => Byte.eqb c p && HasPrefix s' prefix'
  end.

(** [bytes.TrimPrefix] *)
Definition TrimPrefix (s prefix : bytes) : bytes :=
  if HasPrefix s prefix then skipn (length prefix) s else s.

Section TrimSpace.
Context {L : GoLib}.

(** Second loop of [bytes.TrimSpace], run over the reversed slice
    [s[start:]]: drop ASCII white space from the end, handing
    [s[start:stop]] to the slow path at the first non-ASCII byte. *)
Fixpoint trimRight (r : bytes) : bytes :=
  match r with
  | [] => []
  | c :: r' =>
      if nonASCII c then TrimFunc_IsSpace (rev r)
      else if asciiSpace c then trimRight r'
      else rev r
  end.

(** [bytes.TrimSpace]: the first loop drops ASCII white space from the
    front, handing [s[start:]] to the slow path at the first non-ASCII
    byte. *)
Fixpoint TrimSpace (s : bytes) : bytes :=
  match s with
  | [] => []
  | c :: s' =>
      if nonASCII c then TrimFunc_IsSpace s
      else if asciiSpace c then TrimSpace s'
      else trimRight (rev s)
  end.
End TrimSpace.

(** *** io.Reader and bufio.Reader *)

(** The response body as an [io.Reader]: the byte chunks the successive
    [Read] calls deliver, then the error every later [Read] returns
    ([EOF] for a clean end).  [calls] counts the [Read] calls made so far. *)
Record Reader := mkReader {
  chunks : list bytes;
  final : error;
  calls : nat
}.

(** [bufio.Reader]: the wrapped reader and the bytes read from it that
    have not been handed out yet. *)
Record bufioReader := mkBufio {
  rd : Reader;
  pending : bytes
}.

(** [bufio.NewReader] *)
Definition NewReader (r : Reader) : bufioReader :=
  {| rd := r; pending := [] |}.

Definition newline : byte := x0a.

(** Cut [s] after its first newline: the line with its terminator, and the
    rest ([bytes.IndexByte] followed by the two slicings of [ReadSlice]). *)
Fixpoint cutLine (s : bytes) : option (bytes * bytes) :=
  match s with
  | [] => None
  | c :: s' =>
      if Byte.eqb c newline then Some ([c], s')
      else match cutLine s' with
           | Some (line, rest) => Some (c :: line, rest)
           | None => None
           end
  end.

Definition maxConsecutiveEmptyReads : nat := 100.

(** [ReadBytes('\n')].  The buffered bytes are searched for the delimiter;
    when there is none the buffer is refilled: [fill] calls [Read] up to
    [maxConsecutiveEmptyReads] times until one call delivers bytes ([i] is
    the number of calls [fill] has left) and reports [ErrNoProgress] when
    none does.  An error is returned together with the bytes buffered so
    far, which are consumed. *)
Fixpoint ReadBytes_loop (i : nat) (pend : bytes) (cs : list bytes)
         (fin : error) (n : nat) {struct cs}
  : (bytes * option error) * bufioReader :=
  match cutLine pend with
  | Some (line, rest) =>
      ((line, None), mkBufio (mkReader cs fin n) rest)
  | None =>
      match i with
      | O => ((pend, Some ErrNoProgress), mkBufio (mkReader cs fin n) [])
      | S i' =>
          match cs with
          | [] => ((pend, Some fin), mkBufio (mkReader [] fin (S n)) [])
          | c :: cs' =>
              match c with
              | [] => ReadBytes_loop i' pend cs' fin (S n)
              | _ :: _ =>
                  ReadBytes_loop maxConsecutiveEmptyReads (pend ++ c) cs' fin (S n)
              end
          end
      end
  end.

Definition ReadBytes (r : bufioReader) : (bytes * option error) * bufioReader :=
  ReadBytes_loop maxConsecutiveEmptyReads (pending r)
                 (chunks (rd r)) (final (rd r)) (calls (rd r)).

(** ** stream.go *)

Record streamReader := mkStreamReader {
  reader : bufioReader;
  buffer : bytes
}.

Definition newStreamReader (r : Reader) : streamReader :=
  {| reader := NewReader r; buffer := [] |}.

(** Number of loop iterations that are always enough: every line read
    without error consumes at least one byte of the stream. *)
Definition remaining (r : bufioReader) : nat :=
  length (pending r) + length (concat (chunks (rd r))) + length (chunks (rd r)).

Section Decoder.
Context {L : GoLib}.

(** The [for] loop of [readEvent]; [buf] is [s.buffer].  [None] only when
    [fuel] runs out. *)
Fixpoint readEvent_loop (fuel : nat) (r : bufioReader) (buf : bytes)
  : option ((bytes * option error) * streamReader) :=
  match fuel with
  | O => None
  | S fuel' =>
      let '((line, err), r') := ReadBytes r in
      match err with
      | Some e =>
          if error_eqb e EOF && (0 <? length buf)
          then Some ((buf, None), mkStreamReader r' buf)
          else Some (([], Some e), mkStreamReader r' buf)
      | None =>
          if HasPrefix line (bs ":") then readEvent_loop fuel' r' buf
          else if length (TrimSpace line) =? 0 then
            if 0 <? length buf
            then Some ((buf, None), mkStreamReader r' buf)
            else readEvent_loop fuel' r' buf
          else if HasPrefix line (bs "data: ") then
            let data := TrimPrefix line (bs "data: ") in
            let data := TrimSpace data in
            readEvent_loop fuel' r' (buf ++ data)
          else readEvent_loop fuel' r' buf
      end
  end.

(** [readEvent]: reset the buffer, then loop. *)
Definition readEvent (s : streamReader)
  : option ((bytes * option error) * streamReader) :=
  readEvent_loop (S (remaining (reader s))) (reader s) [].

(** The [range resp.Choices] loop of [processStream]. *)
Fixpoint appendChoices (result : string) (cs : list streamChoice) : string :=
  match cs with
  | [] => result
  | choice :: cs' =>
      if negb (String.eqb (Content (Delta choice)) EmptyString)
      then appendChoices (String.append result (Content (Delta choice))) cs'
      else appendChoices result cs'
  end.

(** The [for] loop of [processStream]; [result] is the string builder. *)
Fixpoint processStream_loop (fuel : nat) (s : streamReader) (result : string)
  : option ((string * option error) * streamReader) :=
  match fuel with
  | O => None
  | S fuel' =>
      match readEvent s with
      | None => None
      | Some ((data, err), s') =>
          match err with
          | Some e =>
              if error_eqb e EOF then Some ((result, None), s')
              else Some ((EmptyString, Some e), s')
          | None =>
              if length data =? 0 then processStream_loop fuel' s' result
              else if String.eqb (string_of_list_byte data) "[DONE]"%string
              then processStream_loop fuel' s' result
              else match json_Unmarshal data with
                   | None => Some ((EmptyString, Some ErrStreamCorrupted), s')
                   | Some resp =>
                       processStream_loop fuel' s' (appendChoices result (Choices resp))
                   end
          end
      end
  end.

(** [processStream].  The diagnostics of [debugPrint] and [debugJSON] go
    to standard error only and are not part of the result. *)
Definition processStream (r : Reader) (options : Options)
  : option ((string * option error) * streamReader) :=
  let reader := newStreamReader r in
  processStream_loop (S (remaining (NewReader r))) reader EmptyString.
End Decoder.

(** ** Sequences of events *)

Section Events.
Context {L : GoLib}.

(** Repeated [readEvent] calls up to the first error, as the loop of
    [TestStreamReader] makes them: the payloads returned, each with the
    framer's state after the call, then the error that ended the sequence
    and the state it left. *)
Fixpoint events_loop (fuel : nat) (s : streamReader)
  : option (list (bytes * streamReader) * (error * streamReader)) :=
  match fuel with
  | O => None
  | S fuel' =>
      match readEvent s with
      | None => None
      | Some ((data, Some e), s') => Some ([], (e, s'))
      | Some ((data, None), s') =>
          match events_loop fuel' s' with
          | None => None
          | Some (tr, t) => Some ((data, s') :: tr, t)
          end
      end
  end.

Definition events (s : streamReader)
  : option (list (bytes * streamReader) * (error * streamReader)) :=
  events_loop (S (remaining (reader s))) s.

(** The body of the loop of [processStream] run over an already framed
    sequence of payloads that ends with the error [e]. *)
Fixpoint aggregate (result : string) (ps : list bytes) (e : error)
  : string * option error :=
  match ps with
  | [] => if error_eqb e EOF then (result, None) else (EmptyString, Some e)
  | data :: ps' =>
      if length data =? 0 then aggregate result ps' e
      else if String.eqb (string_of_list_byte data) "[DONE]"%string
      then aggregate result ps' e
      else match json_Unmarshal data with
           | None => (EmptyString, Some ErrStreamCorrupted)
           | Some resp => aggregate (appendChoices result (Choices resp)) ps' e
           end
  end.

(** A payload [processStream] skips without decoding. *)
Definition skipped (data : bytes) : bool :=
  (length data =? 0) || String.eqb (string_of_list_byte data) "[DONE]"%string.

(** A payload [processStream] decodes and [json.Unmarshal] rejects. *)
Definition malformed (data : bytes) : bool :=
  negb (skipped data) &&
  match json_Unmarshal data with None => true | Some _ => false end.

(** The framer state [processStream] stops in: the one left by the call
    that returned the first malformed payload, or by the call that
    returned the error. *)
Fixpoint stopState (tr : list (bytes * streamReader)) (t : error * streamReader)
  : streamReader :=
  match tr with
  | [] => snd t
  | (data, s') :: tr' => if malformed data then s' else stopState tr' t
  end.
End Events.

(** ** Streams as text *)

(** No [fill] runs out of attempts: starting with [i] attempts left, the
    reads never deliver [maxConsecutiveEmptyReads] empty chunks in a row. *)
Fixpoint steady (cs : list bytes) (i : nat) {struct cs} : bool :=
  match i with
  | O => false
  | S i' =>
      match cs with
      | [] => true
      | [] :: cs' => steady cs' i'
      | (_ :: _) :: cs' => steady cs' maxConsecutiveEmptyReads
      end
  end.

(** Every read of the stream makes progress in the sense of [bufio]. *)
Definition progressing (r : Reader) : Prop :=
  steady (chunks r) maxConsecutiveEmptyReads = true.

(** The bytes a [bufio.Reader] has still to hand out. *)
Definition avail (r : bufioReader) : bytes :=
  pending r ++ concat (chunks (rd r)).

(** The newline-terminated lines of a text, each with its terminator, and
    the unterminated rest after the last newline. *)
Fixpoint splitLines (t : bytes) : list bytes * bytes :=
  match t with
  | [] => ([], [])
  | c :: t' =>
      let (ls, tl) := splitLines t' in
      if Byte.eqb c newline then ([c] :: ls, tl)
      else match ls with
           | [] => ([], c :: tl)
           | l :: ls' => ((c :: l) :: ls', tl)
           end
  end.

Definition linesOf (t : bytes) : list bytes := fst (splitLines t).

(** [l] is exactly one line with its terminator. *)
Definition isLine (l : bytes) : Prop := cutLine l = Some (l, []).

(** [a] ends at a line boundary: it is empty or ends with a newline. *)
Definition lineClosed (a : bytes) : Prop := snd (splitLines a) = [].

(** [bufio.Reader] [r] is in a state where it hands out the lines [ls],
    then the unterminated bytes [tl] with the error [fin]; [N] is the
    number of [Read] calls made when the last chunk has been delivered. *)
Definition Text (r : bufioReader) (ls : list bytes) (tl : bytes)
           (fin : error) (N : nat) : Prop :=
  steady (chunks (rd r)) maxConsecutiveEmptyReads = true /\
  splitLines (avail r) = (ls, tl) /\
  final (rd r) = fin /\
  calls (rd r) + length (chunks (rd r)) = N.

(** Successive [ReadBytes] calls on [r] return the lines [ls] and then the
    error [e] together with the unterminated bytes [tl], leaving the reader
    in the state [r']. *)
Inductive Reads : bufioReader -> list bytes -> bytes -> error -> bufioReader -> Prop :=
| Reads_error r tl e r' :
    ReadBytes r = ((tl, Some e), r') -> Reads r [] tl e r'
| Reads_line r line r1 ls tl e r' :
    ReadBytes r = ((line, None), r1) -> Reads r1 ls tl e r' ->
    Reads r (line :: ls) tl e r'.

Section Framing.
Context {L : GoLib}.

(** One call of [readEvent] over lines already cut: the buffer when the
    call stops, and the lines left when a blank line stopped it ([None]
    when the lines ran out). *)
Fixpoint frameOne (buf : bytes) (ls : list bytes) : bytes * option (list bytes) :=
  match ls with
  | [] => (buf, None)
  | line :: ls' =>
      if HasPrefix line (bs ":") then frameOne buf ls'
      else if length (TrimSpace line) =? 0 then
        if 0 <? length buf then (buf, Some ls') else frameOne buf ls'
      else if HasPrefix line (bs "data: ") then
        frameOne (buf ++ TrimSpace (TrimPrefix line (bs "data: "))) ls'
      else frameOne buf ls'
  end.

(** All calls of [readEvent] over lines already cut: the payloads that
    blank lines ended, and the buffer when the lines run out. *)
Fixpoint frameLines (buf : bytes) (ls : list bytes) : list bytes * bytes :=
  match ls with
  | [] => ([], buf)
  | line :: ls' =>
      if HasPrefix line (bs ":") then frameLines buf ls'
      else if length (TrimSpace line) =? 0 then
        if 0 <? length buf
        then let (evs, b') := frameLines [] ls' in (buf :: evs, b')
        else frameLines buf ls'
      else if HasPrefix line (bs "data: ") then
        frameLines (buf ++ TrimSpace (TrimPrefix line (bs "data: "))) ls'
      else frameLines buf ls'
  end.

(** The payloads of a text with lines [ls] whose reads end with [fin]:
    the buffer left at a clean end is one more payload when it is not
    empty. *)
Definition framesOf (fin : error) (ls : list bytes) : list bytes :=
  let (evs, b') := frameLines [] ls in
  if error_eqb fin EOF && (0 <? length b') then evs ++ [b'] else evs.

(** Whether the buffer left at the end of the lines is flushed as a last
    event, which costs one more [Read]. *)
Definition flushes (fin : error) (ls : list bytes) : bool :=
  error_eqb fin EOF && (0 <? length (snd (frameLines [] ls))).

(** A line the loop of [readEvent] reads and drops: a comment, or a line
    that is neither blank nor a data line. *)
Definition ignoredLine (line : bytes) : bool :=
  HasPrefix line (bs ":") ||
  (negb (length (TrimSpace line) =? 0) && negb (HasPrefix line (bs "data: "))).

(** *** The framing rules in the words of the specification *)

(** A line containing only white space. *)
Definition onlyWhitespace (line : bytes) : bool :=
  length (TrimSpace line) =? 0.

(** The payload of the lines read since the previous event boundary: the
    trimmed remainders of those beginning with the data prefix,
    concatenated with no separator. *)
Definition payloadOf (since : list bytes) : bytes :=
  concat (map (fun line => TrimSpace (TrimPrefix line (bs "data: ")))
              (filter (fun line => HasPrefix line (bs "data: ")) since)).

(** Events by the specification: a line of white space ends the event
    when the payload of the lines since the previous boundary is not
    empty and is a no-op otherwise; every other line joins the lines of
    the current event.  Returns the payloads and the lines since the last
    boundary. *)
Fixpoint specEvents (since : list bytes) (ls : list bytes)
  : list bytes * list bytes :=
  match ls with
  | [] => ([], since)
  | line :: ls' =>
      if onlyWhitespace line then
        if 0 <? length (payloadOf since)
        then let (evs, since') := specEvents [] ls' in (payloadOf since :: evs, since')
        else specEvents since ls'
      else specEvents (since ++ [line]) ls'
  end.

(** The payloads by the specification for reads that end with [fin]. *)
Definition specPayloads (fin : error) (ls : list bytes) : list bytes :=
  let (evs, since) := specEvents [] ls in
  if error_eqb fin EOF && (0 <? length (payloadOf since))
  then evs ++ [payloadOf since] else evs.

(** *** Aggregation in the words of the specification *)

(** The non-empty delta fragments of a chunk, in the order of its choice
    entries. *)
Definition fragments (resp : streamResponse) : list string :=
  filter (fun c => negb (String.eqb c EmptyString))
         (map (fun choice => Content (Delta choice)) (Choices resp)).

(** The fragments a payload contributes: none for an empty payload and
    for the terminator. *)
Definition fragmentsOf (data : bytes) : list string :=
  if skipped data then []
  else match json_Unmarshal data with
       | Some resp => fragments resp
       | None => []
       end.

(** A payload that is absorbed: empty, the terminator, or a chunk with no
    non-empty fragment (its choices list may be empty). *)
Definition absorbed (data : bytes) : bool :=
  skipped data ||
  match json_Unmarshal data with
  | Some resp => match fragments resp with [] => true | _ :: _ => false end
  | None => false
  end.
End Framing.

(** Concatenation of strings, in order. *)
Definition join (l : list string) : string :=
  fold_right String.append EmptyString l.

(** A line beginning with the comment marker. *)
Definition commentLine (c : bytes) : Prop :=
  isLine c /\ HasPrefix c (bs ":") = true.

(** A line beginning with [data:] that is not followed by a space. *)
Definition bareDataLine (c : bytes) : Prop :=
  isLine c /\ HasPrefix c (bs "data:") = true /\ HasPrefix c (bs "data: ") = false.

(** Texts that differ by inserting or deleting comment lines at line
    boundaries, any number of times. *)
Inductive commentEdit : bytes -> bytes -> Prop :=
| ce_refl t : commentEdit t t
| ce_insert a c b :
    lineClosed a -> commentLine c -> commentEdit (a ++ b) (a ++ c ++ b)
| ce_delete a c b :
    lineClosed a -> commentLine c -> commentEdit (a ++ c ++ b) (a ++ b)
| ce_trans t1 t2 t3 :
    commentEdit t1 t2 -> commentEdit t2 t3 -> commentEdit t1 t3.

(** ** Kinds of lines *)

(** A line of ASCII white space only, such as the bare newline or a
    carriage return and a newline. *)
Definition blankLine (w : bytes) : Prop :=
  isLine w /\ Forall (fun c => asciiSpace c = true) w.

(** A line that begins with an ASCII byte other than white space and the
    colon, and not with the data prefix: a field such as [event:], [id:] or
    [retry:]. *)
Definition fieldLine (c : bytes) : Prop :=
  isLine c /\
  (exists h rest, c = h :: rest /\ nonASCII h = false /\
                  asciiSpace h = false /\ h <> x3a) /\
  HasPrefix c (bs "data: ") = false.

(** A data line with nothing but ASCII white space after the prefix. *)
Definition emptyDataLine (c : bytes) : Prop :=
  isLine c /\ HasPrefix c (bs "data: ") = true /\
  Forall (fun x => asciiSpace x = true) (skipn 6 c).

(** The line [l] with its newline replaced by carriage return, newline. *)
Definition crlf (l : bytes) : bytes := removelast l ++ [x0d; x0a].

(** Every byte is below [utf8.RuneSelf]. *)
Definition asciiText (t : bytes) : Prop := Forall (fun c => nonASCII c = false) t.

Section LineKinds.
Context {L : GoLib}.

(** What one iteration of the loop of [readEvent] does with a line read
    without error, by the order of its tests. *)
Inductive lineKind : Type :=
| KComment
| KBlank
| KData (data : bytes)
| KOther.

Definition classify (line : bytes) : lineKind :=
  if HasPrefix line (bs ":") then KComment
  else if length (TrimSpace line) =? 0 then KBlank
  else if HasPrefix line (bs "data: ")
       then KData (TrimSpace (TrimPrefix line (bs "data: ")))
       else KOther.
End LineKinds.

(** ** The client: options.go, errors.go and aiyou.go *)

(** The options [processStream] receives, from their [Debug] field. *)
Definition streamOptions (debug : bool) : Options := mkOptions debug.

(** [io.ReadAll]: every chunk up to the error that ends the reads, which
    is returned unless it is [io.EOF]; the reader is left at its end. *)
Definition ReadAll (r : Reader) : (bytes * option error) * Reader :=
  ((concat (chunks r), if error_eqb (final r) EOF then None else Some (final r)),
   mkReader [] (final r) (calls r + length (chunks r) + 1)).

(** One [Read] into a slice of [cap] bytes: at most [cap] bytes of what the
    reader has to deliver next, the rest staying for the next [Read]. *)
Definition Read (cap : nat) (r : Reader) : (bytes * option error) * Reader :=
  match chunks r with
  | [] => (([], Some (final r)), mkReader [] (final r) (S (calls r)))
  | c :: cs =>
      ((firstn cap c, None),
       mkReader (match skipn cap c with [] => cs | rest => rest :: cs end)
                (final r) (S (calls r)))
  end.

(** [io.MultiReader(bytes.NewReader(head), r)]: the bytes of [head] in one
    read when there are any, then the reads of [r]. *)
Definition MultiReader (head : bytes) (r : Reader) : Reader :=
  mkReader (match head with [] => chunks r | _ :: _ => head :: chunks r end)
           (final r) 0.

Module Client.

(** [time.Duration], a 64-bit count of nanoseconds, and the product of two
    durations as the machine computes it. *)
Definition Duration := Z.

Definition wrap64 (z : Z) : Z := ((z + 2 ^ 63) mod 2 ^ 64 - 2 ^ 63)%Z.

Definition Second : Duration := 1000000000%Z.

Record RetryConfig := {
  MaxRetries : Z;
  RetryDelay : Duration;
  MaxDelay : Duration
}.

(** [Options]; the field [RetryConfig] of the source is [Retry] here, a
    nil pointer being [None]. *)
Record Options := {
  BaseURL : string;
  Temperature : float;
  Timeout : Duration;
  Retry : option RetryConfig;
  PromptSystem : string;
  Stream : bool;
  Debug : bool;
  AssistantID : string
}.

(** [Option]: a function that updates the [Options] it is given. *)
Definition Option := Options -> Options.

Definition minTemperature : float := 0%float.
Definition maxTemperature : float := 1%float.
Definition defaultTemp : float := 1%float.
Definition defaultTimeout : Duration := (30 * Second)%Z.
Definition defaultBaseURL : string := "https://ai.dragonflygroup.fr/api/v1".

Definition WithTemperature (temp : float) : Option := fun o =>
  if (temp <? minTemperature)%float || (maxTemperature <? temp)%float then o
  else {| BaseURL := BaseURL o; Temperature := temp; Timeout := Timeout o;
          Retry := Retry o; PromptSystem := PromptSystem o; Stream := Stream o;
          Debug := Debug o; AssistantID := AssistantID o |}.

Definition WithTimeout (timeout : Duration) : Option := fun o =>
  if (0 <? timeout)%Z
  then {| BaseURL := BaseURL o; Temperature := Temperature o; Timeout := timeout;
          Retry := Retry o; PromptSystem := PromptSystem o; Stream := Stream o;
          Debug := Debug o; AssistantID := AssistantID o |}
  else o.

Definition WithRetry (maxRetries : Z) (retryDelay : Duration) : Option := fun o =>
  if (0 <? maxRetries)%Z && (0 <? retryDelay)%Z
  then {| BaseURL := BaseURL o; Temperature := Temperature o; Timeout := Timeout o;
          Retry := Some {| MaxRetries := maxRetries; RetryDelay := retryDelay;
                           MaxDelay := wrap64 (retryDelay * 4) |};
          PromptSystem := PromptSystem o; Stream := Stream o;
          Debug := Debug o; AssistantID := AssistantID o |}
  else o.

Definition WithSystemPrompt (prompt : string) : Option := fun o =>
  {| BaseURL := BaseURL o; Temperature := Temperature o; Timeout := Timeout o;
     Retry := Retry o; PromptSystem := prompt; Stream := Stream o;
     Debug := Debug o; AssistantID := AssistantID o |}.

Definition WithStream (stream : bool) : Option := fun o =>
  {| BaseURL := BaseURL o; Temperature := Temperature o; Timeout := Timeout o;
     Retry := Retry o; PromptSystem := PromptSystem o; Stream := stream;
     Debug := Debug o; AssistantID := AssistantID o |}.

Definition WithDebug (debug : bool) : Option := fun o =>
  {| BaseURL := BaseURL o; Temperature := Temperature o; Timeout := Timeout o;
     Retry := Retry o; PromptSystem := PromptSystem o; Stream := Stream o;
     Debug := debug; AssistantID := AssistantID o |}.

Definition WithAssistantID (assistantID : string) : Option := fun o =>
  {| BaseURL := BaseURL o; Temperature := Temperature o; Timeout := Timeout o;
     Retry := Retry o; PromptSystem := PromptSystem o; Stream := Stream o;
     Debug := Debug o; AssistantID := assistantID |}.

Definition WithBaseURL (url : string) : Option := fun o =>
  if negb (String.eqb url EmptyString)
  then {| BaseURL := url; Temperature := Temperature o; Timeout := Timeout o;
          Retry := Retry o; PromptSystem := PromptSystem o; Stream := Stream o;
          Debug := Debug o; AssistantID := AssistantID o |}
  else o.

Definition defaultOptions : Options :=
  {| BaseURL := defaultBaseURL; Temperature := defaultTemp;
     Timeout := defaultTimeout; Retry := None; PromptSystem := EmptyString;
     Stream := false; Debug := false; AssistantID := EmptyString |}.

(** [for _, opt := range opts { opt(options) }] *)
Definition applyOptions (opts : list Option) (o : Options) : Options :=
  fold_left (fun o opt => opt o) opts o.

(** The options the package itself builds. *)
Inductive packageOption : Option -> Prop :=
| po_temperature temp : packageOption (WithTemperature temp)
| po_timeout timeout : packageOption (WithTimeout timeout)
| po_retry maxRetries retryDelay : packageOption (WithRetry maxRetries retryDelay)
| po_prompt prompt : packageOption (WithSystemPrompt prompt)
| po_stream stream : packageOption (WithStream stream)
| po_debug debug : packageOption (WithDebug debug)
| po_assistant assistantID : packageOption (WithAssistantID assistantID)
| po_url url : packageOption (WithBaseURL url).

(** What the options keep true. *)
Definition wellConfigured (o : Options) : Prop :=
  BaseURL o <> EmptyString /\
  (0 < Timeout o)%Z /\
  (Temperature o <? minTemperature)%float = false /\
  (maxTemperature <? Temperature o)%float = false /\
  match Retry o with
  | None => True
  | Some c => (0 < MaxRetries c)%Z /\ (0 < RetryDelay c)%Z /\
              MaxDelay c = wrap64 (RetryDelay c * 4)
  end.

(** Error values of the client: the sentinels of errors.go, an error
    returned by [processStream], an error of the HTTP transport, and the
    results of [fmt.Errorf], kept as the format and its arguments. *)
Inductive err : Type :=
| ErrInvalidToken
| ErrInvalidModel
| ErrRateLimit
| ErrTimeout
| ErrInvalidTemp
| ErrEmptyMessage
| ErrEmptyToken
| FromStream (e : error)
| External (msg : string)
| Errorf (format : string) (args : list arg)
with arg : Type :=
| AString (s : string)
| AInt (n : Z)
| AError (e : option err).

(** types.go: the request and the response of a completion; [apiResponse]
    has the fields of its inner struct [Response]. *)
Record content := { Type_ : string; Text : string }.

Record apiMessage := { Role : string; Content : list content }.

Record apiRequest := {
  Messages : list apiMessage;
  Model : string;
  ReqAssistantID : string;
  ReqTemperature : float;
  ReqStream : bool;
  ReqPromptSystem : string
}.

Record message := { MsgRole : string; MsgContent : string; Refusal : string }.

Record choice := { Index : Z; Message : message; FinishReason : string }.

Record apiResponse := {
  RespModel : string;
  RespID : string;
  Created : Z;
  Choices : list choice;
  RespUsage : usage
}.

(** types.go: the list of models, by provider, and a model. *)
Record modelEntry := { EntryName : string }.

Record provider := { Models : list modelEntry }.

Definition ModelsResponse := list provider.

Record Model_ := { Name : string }.

(** [*http.Response], with the body in its current state. *)
Record Response := {
  StatusCode : Z;
  Status : string;
  Body : Reader
}.

(** What [client.Do] returns. *)
Inductive doResult : Type :=
| DoError (msg : string)
| DoResponse (resp : Response).

(** The world outside the package: [json.Marshal] of the request and
    [http.NewRequest] (an error message when they fail), the result of the
    [n]-th call of [client.Do], and [json.NewDecoder(body).Decode] of a
    completion response and of a list of models. *)
Record World := {
  json_Marshal : apiRequest -> bytes + string;
  http_NewRequest : string -> bytes -> option string;
  client_Do : nat -> doResult;
  json_Decode : Reader -> apiResponse + string;
  json_DecodeModels : Reader -> ModelsResponse + string
}.

Definition StatusOK : Z := 200.
Definition StatusBadRequest : Z := 400.
Definition StatusUnauthorized : Z := 401.
Definition StatusTooManyRequests : Z := 429.

(** [handleHTTPError] *)
Definition handleHTTPError (resp : Response) : err :=
  if (StatusCode resp =? StatusUnauthorized)%Z then ErrInvalidToken
  else if (StatusCode resp =? StatusTooManyRequests)%Z then ErrRateLimit
  else if (StatusCode resp =? StatusBadRequest)%Z then
    let '((body, _), _) := ReadAll (Body resp) in
    Errorf "bad request: %s" [AString (string_of_list_byte body)]
  else Errorf "HTTP error %d: %s" [AInt (StatusCode resp); AString (Status resp)].

(** [shouldRetry] *)
Definition shouldRetry (statusCode : Z) : bool :=
  (statusCode =? StatusTooManyRequests)%Z || (500 <=? statusCode)%Z.

(** [getMaxRetries] *)
Definition getMaxRetries (config : option RetryConfig) : Z :=
  match config with
  | None => 0%Z
  | Some c => MaxRetries c
  end.

Section Completion.
Context {L : GoLib}.
Variable W : World.
Variable options : Options.

(** The body handed to [processStream]: with [Debug] on, up to 1024 bytes
    are read first for the diagnostics and put back in front of the rest. *)
Definition streamBody (body : Reader) : Reader :=
  if Debug options then
    let '((head, _), rest) := Read 1024 body in MultiReader head rest
  else body.

(** The retry loop of [Completion]: [n] iterations are left, [attempt]
    calls of [client.Do] have been made and [lastErr] is the last error.
    The pauses between attempts ([time.Sleep]) and the diagnostics are left
    out.  The result comes with the number of calls made. *)
Fixpoint attempts (n attempt : nat) (lastErr : option err)
  : option ((string * option err) * nat) :=
  match n with
  | O => Some ((EmptyString,
                Some (Errorf "max retries exceeded: %w" [AError lastErr])),
               attempt)
  | S n' =>
      match client_Do W attempt with
      | DoError e =>
          attempts n' (S attempt)
                   (Some (Errorf "error executing request: %w"
                                 [AError (Some (External e))]))
      | DoResponse resp =>
          if negb (StatusCode resp =? StatusOK)%Z then
            let '(_, drained) := ReadAll (Body resp) in
            let lastErr :=
              handleHTTPError {| StatusCode := StatusCode resp;
                                 Status := Status resp; Body := drained |} in
            if negb (shouldRetry (StatusCode resp))
            then Some ((EmptyString, Some lastErr), S attempt)
            else attempts n' (S attempt) (Some lastErr)
          else if Stream options then
            match processStream (streamBody (Body resp))
                                (streamOptions (Debug options)) with
            | None => None
            | Some ((text, e), _) =>
                Some ((text, option_map FromStream e), S attempt)
            end
          else
            match json_Decode W (Body resp) with
            | inr e =>
                attempts n' (S attempt)
                         (Some (Errorf "error decoding response: %w"
                                       [AError (Some (External e))]))
            | inl apiResp =>
                match Choices apiResp with
                | c :: _ => Some ((MsgContent (Message c), None), S attempt)
                | [] => Some ((EmptyString,
                               Some (Errorf "no content in response" [])),
                              S attempt)
                end
            end
      end
  end.
End Completion.

(** The request [Completion] sends. *)
Definition buildRequest (model message : string) (options : Options) : apiRequest :=
  {| Messages := [ {| Role := "user";
                      Content := [ {| Type_ := "text"; Text := message |} ] |} ];
     Model := model;
     ReqTemperature := Temperature options;
     ReqStream := Stream options;
     ReqPromptSystem := PromptSystem options;
     ReqAssistantID := AssistantID options |}.

(** [Completion]; the result comes with the number of calls of
    [client.Do] made. *)
Definition Completion {L : GoLib} (W : World)
           (model token message : string) (opts : list Option)
  : option ((string * option err) * nat) :=
  if String.eqb token EmptyString then Some ((EmptyString, Some ErrEmptyToken), 0)
  else if String.eqb message EmptyString
  then Some ((EmptyString, Some ErrEmptyMessage), 0)
  else
    let options := applyOptions opts defaultOptions in
    let req := buildRequest model message options in
    match json_Marshal W req with
    | inr e =>
        Some ((EmptyString,
               Some (Errorf "error marshaling request: %w"
                            [AError (Some (External e))])), 0)
    | inl body =>
        match http_NewRequest W (String.append (BaseURL options) "/chat/completions")
                              body with
        | Some e =>
            Some ((EmptyString,
                   Some (Errorf "error creating request: %w"
                                [AError (Some (External e))])), 0)
        | None =>
            attempts W options (Z.to_nat (getMaxRetries (Retry options) + 1)) 0 None
        end
    end.

(** [Completion] gets as far as sending requests: the inputs are not
    empty, the request is encoded and [http.NewRequest] accepts it. *)
Definition sendsRequests (W : World) (model token message : string)
           (opts : list Option) : Prop :=
  token <> EmptyString /\ message <> EmptyString /\
  exists body,
    json_Marshal W (buildRequest model message (applyOptions opts defaultOptions))
    = inl body /\
    http_NewRequest W
      (String.append (BaseURL (applyOptions opts defaultOptions)) "/chat/completions")
      body = None.

(** The response after [io.ReadAll] has read its body. *)
Definition drained (resp : Response) : Response :=
  {| StatusCode := StatusCode resp; Status := Status resp;
     Body := snd (ReadAll (Body resp)) |}.

(** The error an attempt leaves when the loop goes on to the next one, and
    [None] when the attempt ends the loop. *)
Definition failureOf (W : World) (options : Options) (d : doResult) : option err :=
  match d with
  | DoError e =>
      Some (Errorf "error executing request: %w" [AError (Some (External e))])
  | DoResponse resp =>
      if negb (StatusCode resp =? StatusOK)%Z then
        if shouldRetry (StatusCode resp) then Some (handleHTTPError (drained resp))
        else None
      else if Stream options then None
      else match json_Decode W (Body resp) with
           | inr e => Some (Errorf "error decoding response: %w"
                                   [AError (Some (External e))])
           | inl _ => None
           end
  end.

Definition StatusCreated : Z := 201.

(** The retry loop of [ListModels], as that of [Completion]. *)
Fixpoint modelAttempts (W : World) (n attempt : nat) (lastErr : option err)
  : (list Model_ * option err) * nat :=
  match n with
  | O => (([], Some (Errorf "max retries exceeded: %w" [AError lastErr])), attempt)
  | S n' =>
      match client_Do W attempt with
      | DoError e =>
          modelAttempts W n' (S attempt)
                        (Some (Errorf "error executing request: %w"
                                      [AError (Some (External e))]))
      | DoResponse resp =>
          if negb (StatusCode resp =? StatusOK)%Z &&
             negb (StatusCode resp =? StatusCreated)%Z then
            let lastErr := handleHTTPError resp in
            if negb (shouldRetry (StatusCode resp))
            then (([], Some lastErr), S attempt)
            else modelAttempts W n' (S attempt) (Some lastErr)
          else
            match json_DecodeModels W (Body resp) with
            | inr e =>
                modelAttempts W n' (S attempt)
                              (Some (Errorf "error decoding response: %w"
                                            [AError (Some (External e))]))
            | inl modelsResp =>
                ((flat_map (fun p => map (fun m => {| Name := EntryName m |})
                                         (Models p)) modelsResp,
                  None), S attempt)
            end
      end
  end.

(** [ListModels]; the result comes with the number of calls of
    [client.Do] made. *)
Definition ListModels (W : World) (token : string) (opts : list Option)
  : (list Model_ * option err) * nat :=
  if String.eqb token EmptyString then (([], Some ErrEmptyToken), 0)
  else
    let options := applyOptions opts defaultOptions in
    match http_NewRequest W (String.append (BaseURL options) "/models") (bs "{}") with
    | Some e =>
        (([], Some (Errorf "error creating request: %w"
                           [AError (Some (External e))])), 0)
    | None =>
        modelAttempts W (Z.to_nat (getMaxRetries (Retry options) + 1)) 0 None
    end.

(** The error an attempt of [ListModels] leaves when the loop goes on, and
    [None] when the attempt ends the loop. *)
Definition modelFailureOf (W : World) (d : doResult) : option err :=
  match d with
  | DoError e =>
      Some (Errorf "error executing request: %w" [AError (Some (External e))])
  | DoResponse resp =>
      if negb (StatusCode resp =? StatusOK)%Z &&
         negb (StatusCode resp =? StatusCreated)%Z then
        if shouldRetry (StatusCode resp) then Some (handleHTTPError resp) else None
      else match json_DecodeModels W (Body resp) with
           | inr e => Some (Errorf "error decoding response: %w"
                                   [AError (Some (External e))])
           | inl _ => None
           end
  end.

End Client.

(** ** A runtime and streams for the examples *)

(** Byte-slice literals with Go's escapes: in the argument a single quote
    stands for a double quote and the two characters backslash, n for a
    newline. *)
Fixpoint unescape (s : bytes) : bytes :=
  match s with
  | [] => []
  | x5c :: x6e :: s' => x0a :: unescape s'
  | x27 :: s' => x22 :: unescape s'
  | c :: s' => c :: unescape s'
  end.

Definition golit (s : string) : bytes := unescape (bs s).
Arguments golit s%_string.

Definition bytes_eqb (x y : bytes) : bool :=
  String.eqb (string_of_list_byte x) (string_of_list_byte y).

(** A chunk with the given deltas and all other fields at their zero
    values. *)
Definition chunkOf (deltas : list delta) : streamResponse :=
  {| Model := EmptyString; ID := EmptyString; Created := 0%Z;
     Choices := map (fun d => mkStreamChoice 0%Z d) deltas;
     Usage := None |}.

(** What [json.Unmarshal] returns on the payloads of stream_test.go; every
    other payload is rejected. *)
Definition testUnmarshal (data : bytes) : option streamResponse :=
  if bytes_eqb data (golit "{'choices':[{'delta':{'content':'Hello'}}]}")
  then Some (chunkOf [mkDelta EmptyString "Hello"])
  else if bytes_eqb data (golit "{'choices':[{'delta':{'content':' World'}}]}")
  then Some (chunkOf [mkDelta EmptyString " World"])
  else if bytes_eqb data
            (golit "{'choices':[{'delta':{'role':'assistant','content':'Hello'}}]}")
  then Some (chunkOf [mkDelta "assistant" "Hello"])
  else if bytes_eqb data (golit "{'choices':[{'delta':{'content':'!'}}]}")
  then Some (chunkOf [mkDelta EmptyString "!"])
  else if bytes_eqb data (golit "{'choices':[]}")
  then Some (chunkOf [])
  else if bytes_eqb data (golit "{'content':'Hello'}")
  then Some (chunkOf [])
  else None.

(** A runtime for inputs whose lines are ASCII: the slow path of
    [bytes.TrimSpace] is not reached on them and is left as the identity. *)
Definition testLib : GoLib :=
  {| TrimFunc_IsSpace := fun s => s;
     TrimFunc_IsSpace_head := fun c s _ _ (H : c :: s = []) =>
       eq_ind (c :: s) (fun l => match l with [] => False | _ :: _ => True end)
              I [] H;
     json_Unmarshal := testUnmarshal |}.

(** The response body [text] delivered by one [Read], as a
    [strings.Reader] does. *)
Definition body (text : bytes) : Reader := mkReader [text] EOF 0.

(** "simple message" of [TestProcessStream], delivered in four reads, one
    of them empty. *)
Definition simpleMessage : Reader :=
  mkReader [golit "data: {'choices':[{'delta':{'content':'Hel";
            golit "lo'}}]}\n\ndata: {'choices':[{'delta':";
            [];
            golit "{'content':' World'}}]}\n\ndata: [DONE]\n\n"] EOF 0.

(** "invalid json" of [TestProcessStream], followed by a chunk. *)
Definition invalidJSON : Reader :=
  body (golit "data: {invalid json}\n\ndata: {'choices':[{'delta':{'content':'!'}}]}\n\n").

(** A terminator in the middle and absorbed payloads around it. *)
Definition doneInTheMiddle : Reader :=
  body (golit "data: {'choices':[]}\n\ndata: {'choices':[{'delta':{'content':'Hello'}}]}\n\ndata: [DONE]\n\ndata: {'choices':[{'delta':{'content':'!'}}]}\n\n").

(** A connection reset after the first chunk. *)
Definition resetStream : Reader :=
  mkReader [golit "data: {'choices':[{'delta':{'content':'Hello'}}]}\n\ndata: {'cho"]
           (ErrTransport "connection reset by peer") 0.

(** The payloads the loop of [TestStreamReader] collects from a body. *)
Definition payloadsOf (text : bytes) : option (list bytes) :=
  option_map (fun x => map fst (fst x))
             (events (L := testLib) (newStreamReader (body text))).

(** What [TestProcessStream] compares: the string and the error returned
    for a body. *)
Definition resultOf (text : bytes) : option (string * option error) :=
  option_map fst (processStream (L := testLib) (body text) (mkOptions false)).

(** A list of models by three providers. *)
Definition testModels : Client.ModelsResponse :=
  [ {| Client.Models := [ {| Client.EntryName := "az-gpt-4o" |};
                          {| Client.EntryName := "az-gpt-4o-mini" |} ] |};
    {| Client.Models := [] |};
    {| Client.Models := [ {| Client.EntryName := "llama" |} ] |} ].

(** A world in which the calls of [client.Do] return the given results
    one after the other, [json.Decode] returns [decoded] for a completion
    and [testModels] for a list of models. *)
Definition worldOf (results : list Client.doResult)
           (decoded : Client.apiResponse + string) : Client.World :=
  {| Client.json_Marshal := fun _ => inl (bs "{}");
     Client.http_NewRequest := fun _ _ => None;
     Client.client_Do := fun n => nth n results (Client.DoError "EOF");
     Client.json_Decode := fun _ => decoded;
     Client.json_DecodeModels := fun _ => inl testModels |}.

Definition responseOf (code : Z) (status : string) (text : bytes) : Client.doResult :=
  Client.DoResponse {| Client.StatusCode := code; Client.Status := status;
                       Client.Body := body text |}.

(** The response of "simple response" in [TestCompletion], decoded. *)
Definition simpleResponse : Client.apiResponse :=
  {| Client.RespModel := "az-gpt-4o"; Client.RespID := "test-id";
     Client.Created := 0%Z;
     Client.Choices :=
       [ {| Client.Index := 0%Z;
            Client.Message := {| Client.MsgRole := "assistant";
                                 Client.MsgContent := "Hello! How can I help you?";
                                 Client.Refusal := EmptyString |};
            Client.FinishReason := "stop" |} ];
     Client.RespUsage := mkUsage 0 0 0 |}.

(** ** Basic facts *)

Lemma error_eqb_eq (e1 e2 : error) : error_eqb e1 e2 = true <-> e1 = e2.
Proof.
  destruct e1, e2; simpl; split; intro H; try reflexivity; try discriminate.
  - apply String.eqb_eq in H. now subst.
  - inversion H. apply String.eqb_refl.
Qed.

Lemma error_eqb_refl (e : error) : error_eqb e e = true.
Proof. now apply error_eqb_eq. Qed.

Lemma error_eqb_neq (e1 e2 : error) : error_eqb e1 e2 = false <-> e1 <> e2.
Proof.
  split.
  - intros H E. apply error_eqb_eq in E. congruence.
  - intro H. destruct (error_eqb e1 e2) eqn:E; [|reflexivity].
    apply error_eqb_eq in E. contradiction.
Qed.

Lemma cutLine_Some (s line rest : bytes) :
  cutLine s = Some (line, rest) -> s = line ++ rest /\ line <> [].
Proof.
  revert line rest. induction s as [|c s IH]; simpl; intros line rest H.
  - discriminate.
  - destruct (Byte.eqb c newline).
    + inversion H; subst. split; [reflexivity | discriminate].
    + destruct (cutLine s) as [[l r]|]; [|discriminate].
      inversion H; subst. destruct (IH l rest eq_refl) as [-> _].
      split; [reflexivity | discriminate].
Qed.

Lemma cutLine_app (s1 s2 : bytes) :
  cutLine (s1 ++ s2) =
  match cutLine s1 with
  | Some (line, rest) => Some (line, rest ++ s2)
  | None => match cutLine s2 with
            | Some (line, rest) => Some (s1 ++ line, rest)
            | None => None
            end
  end.
Proof.
  induction s1 as [|c s1 IH]; simpl.
  - now destruct (cutLine s2) as [[l r]|].
  - destruct (Byte.eqb c newline); [reflexivity|].
    rewrite IH. destruct (cutLine s1) as [[l r]|]; [reflexivity|].
    now destruct (cutLine s2) as [[l r]|].
Qed.

(** ** The loops terminate *)

Lemma ReadBytes_loop_remaining (cs : list bytes) :
  forall i pend fin n res r',
    ReadBytes_loop i pend cs fin n = (res, r') ->
    remaining r' <= length pend + length (concat cs) + length cs /\
    (snd res = None ->
     remaining r' < length pend + length (concat cs) + length cs).
Proof.
  unfold remaining.
  induction cs as [|c cs IH]; intros i pend fin n res r' H; simpl in H.
  - destruct (cutLine pend) as [[line rest]|] eqn:E.
    + inversion H; subst; simpl. apply cutLine_Some in E as [-> Hne].
      rewrite length_app. destruct line; [congruence|simpl]. lia.
    + destruct i; inversion H; subst; simpl; split; try lia; discriminate.
  - destruct (cutLine pend) as [[line rest]|] eqn:E.
    + inversion H; subst; simpl. apply cutLine_Some in E as [-> Hne].
      rewrite !length_app. destruct line; [congruence|simpl]. lia.
    + destruct i.
      * inversion H; subst; simpl. split; [lia | discriminate].
      * destruct c as [|x c].
        -- apply IH in H. simpl in *. lia.
        -- apply IH in H. simpl in *. rewrite !length_app in *. simpl in *. lia.
Qed.

Lemma ReadBytes_remaining (r r' : bufioReader) (res : bytes * option error) :
  ReadBytes r = (res, r') ->
  remaining r' <= remaining r /\ (snd res = None -> remaining r' < remaining r).
Proof. intro H. apply ReadBytes_loop_remaining in H. exact H. Qed.

Section Termination.
Context {L : GoLib}.

Lemma readEvent_loop_total (fuel : nat) :
  forall r buf, remaining r < fuel ->
    exists res s', readEvent_loop fuel r buf = Some (res, s') /\
                   remaining (reader s') <= remaining r /\
                   (snd res = None -> buf = [] ->
                    remaining (reader s') < remaining r).
Proof.
  induction fuel as [|fuel IH]; intros r buf Hf; [lia|].
  cbn [readEvent_loop].
  destruct (ReadBytes r) as [[line err] r'] eqn:ER.
  apply ReadBytes_remaining in ER as [Hle Hlt]. simpl in Hlt.
  destruct err as [e|].
  - destruct (error_eqb e EOF && (0 <? length buf)) eqn:Ef.
    + eexists _, _. split; [reflexivity|]. simpl. split; [exact Hle|].
      intros _ ->. apply andb_true_iff in Ef as [_ Ef]. discriminate.
    + eexists _, _. split; [reflexivity|]. simpl. split; [exact Hle|].
      discriminate.
  - specialize (Hlt eq_refl).
    assert (Hrec : forall buf', exists res s',
               readEvent_loop fuel r' buf' = Some (res, s') /\
               remaining (reader s') <= remaining r /\
               (snd res = None -> buf = [] ->
                remaining (reader s') < remaining r)).
    { intro buf'. destruct (IH r' buf') as (res & s' & E & H1 & _); [lia|].
      exists res, s'. split; [exact E|]. split; lia. }
    destruct (HasPrefix line (bs ":")); [apply Hrec|].
    destruct (length (TrimSpace line) =? 0).
    + destruct (0 <? length buf) eqn:Eb; [|apply Hrec].
      eexists _, _. split; [reflexivity|]. simpl. split; [lia|].
      intros _ ->. discriminate.
    + destruct (HasPrefix line (bs "data: ")); apply Hrec.
Qed.

Lemma readEvent_loop_mono (fuel : nat) :
  forall fuel' r buf x,
    readEvent_loop fuel r buf = Some x -> fuel <= fuel' ->
    readEvent_loop fuel' r buf = Some x.
Proof.
  induction fuel as [|fuel IH]; intros fuel' r buf x H Hle; [discriminate|].
  destruct fuel' as [|fuel']; [lia|].
  cbn [readEvent_loop] in *.
  destruct (ReadBytes r) as [[line err] r'].
  destruct err as [e|]; [exact H|].
  assert (Hrec : forall buf', readEvent_loop fuel r' buf' = Some x ->
                              readEvent_loop fuel' r' buf' = Some x).
  { intros buf' H'. apply IH; [exact H' | lia]. }
  destruct (HasPrefix line (bs ":")); [now apply Hrec|].
  destruct (length (TrimSpace line) =? 0).
  - destruct (0 <? length buf); [exact H | now apply Hrec].
  - destruct (HasPrefix line (bs "data: ")); now apply Hrec.
Qed.

(** [readEvent] always returns, and a successful call consumes input. *)
Lemma readEvent_total (s : streamReader) :
  exists res s', readEvent s = Some (res, s') /\
                 remaining (reader s') <= remaining (reader s) /\
                 (snd res = None -> remaining (reader s') < remaining (reader s)).
Proof.
  unfold readEvent.
  destruct (@readEvent_loop_total (S (remaining (reader s)))
              (reader s) []) as (res & s' & E & H1 & H2); [lia|].
  exists res, s'. split; [exact E|]. split; [exact H1|]. auto.
Qed.

(** The result of [readEvent] is that of its loop with any fuel that is
    enough. *)
Lemma readEvent_fuel (fuel : nat) (s : streamReader) x :
  readEvent_loop fuel (reader s) [] = Some x -> readEvent s = Some x.
Proof.
  intro H. destruct (readEvent_total s) as (res & s' & E & _).
  unfold readEvent in *.
  pose proof (readEvent_loop_mono _ _ H
                (Nat.le_max_l fuel (S (remaining (reader s))))) as H1.
  pose proof (readEvent_loop_mono _ _ E
                (Nat.le_max_r fuel (S (remaining (reader s))))) as H2.
  congruence.
Qed.

Lemma events_loop_total (fuel : nat) :
  forall s, remaining (reader s) < fuel ->
    exists tr t, events_loop fuel s = Some (tr, t).
Proof.
  induction fuel as [|fuel IH]; intros s Hf; [lia|].
  cbn [events_loop].
  destruct (readEvent_total s) as ([data err] & s' & -> & Hle & Hlt).
  destruct err as [e|].
  - eexists _, _. reflexivity.
  - destruct (IH s') as (tr & t & ->); [simpl in Hlt; specialize (Hlt eq_refl); lia|].
    eexists _, _. reflexivity.
Qed.

(** The sequence of events of a stream is always defined. *)
Lemma events_total (s : streamReader) : exists tr t, events s = Some (tr, t).
Proof. apply events_loop_total. lia. Qed.

Lemma events_loop_mono (fuel : nat) :
  forall fuel' s x,
    events_loop fuel s = Some x -> fuel <= fuel' -> events_loop fuel' s = Some x.
Proof.
  induction fuel as [|fuel IH]; intros fuel' s x H Hle; [discriminate|].
  destruct fuel' as [|fuel']; [lia|].
  cbn [events_loop] in *.
  destruct (readEvent s) as [[[data err] s']|]; [|discriminate].
  destruct err as [e|]; [exact H|].
  destruct (events_loop fuel s') as [[tr t]|] eqn:E; [|discriminate].
  rewrite (IH fuel' s' _ E); [exact H | lia].
Qed.

Lemma events_fuel (fuel : nat) (s : streamReader) x :
  events_loop fuel s = Some x -> events s = Some x.
Proof.
  intro H. destruct (events_total s) as (tr & t & E). unfold events in *.
  pose proof (events_loop_mono _ H
                (Nat.le_max_l fuel (S (remaining (reader s))))) as H1.
  pose proof (events_loop_mono _ E
                (Nat.le_max_r fuel (S (remaining (reader s))))) as H2.
  congruence.
Qed.

(** Unfolding of [events]. *)
Lemma events_step (s : streamReader) :
  events s =
  match readEvent s with
  | None => None
  | Some ((data, Some e), s') => Some ([], (e, s'))
  | Some ((data, None), s') =>
      match events s' with
      | None => None
      | Some (tr, t) => Some ((data, s') :: tr, t)
      end
  end.
Proof.
  destruct (readEvent_total s) as ([data err] & s' & E & _).
  rewrite E. destruct err as [e|].
  - unfold events. cbn [events_loop]. now rewrite E.
  - destruct (events_total s') as (tr & t & E'). rewrite E'.
    apply (events_fuel (S (S (remaining (reader s'))))).
    cbn [events_loop]. rewrite E.
    unfold events in E'. cbn [events_loop] in E'. now rewrite E'.
Qed.
End Termination.

(** ** Reading lines from a stream that makes progress *)

Lemma steady_mono (cs : list bytes) :
  forall i j, steady cs i = true -> i <= j -> steady cs j = true.
Proof.
  induction cs as [|c cs IH]; intros i j H Hle.
  - destruct i; [discriminate|]. destruct j; [lia | reflexivity].
  - destruct i; [simpl in H; discriminate|]. destruct j; [lia|].
    simpl in *. destruct c; [|exact H]. apply (IH i); [exact H | lia].
Qed.

Lemma steady_nonempty (cs : list bytes) :
  Forall (fun c => c <> []) cs -> steady cs maxConsecutiveEmptyReads = true.
Proof.
  induction 1 as [|c cs Hc _ IH]; [reflexivity|].
  destruct c; [congruence | exact IH].
Qed.

Lemma splitLines_cut (t : bytes) :
  match cutLine t with
  | Some (line, rest) =>
      splitLines t = (line :: fst (splitLines rest), snd (splitLines rest))
  | None => splitLines t = ([], t)
  end.
Proof.
  induction t as [|c t IH]; simpl; [reflexivity|].
  destruct (Byte.eqb c newline).
  - now destruct (splitLines t).
  - destruct (cutLine t) as [[line rest]|].
    + rewrite IH. reflexivity.
    + rewrite IH. reflexivity.
Qed.

Lemma splitLines_cons (t l : bytes) (ls : list bytes) (tl : bytes) :
  splitLines t = (l :: ls, tl) ->
  exists rest, cutLine t = Some (l, rest) /\ splitLines rest = (ls, tl).
Proof.
  intro H. pose proof (splitLines_cut t) as C.
  destruct (cutLine t) as [[line rest]|].
  - rewrite H in C. inversion C; subst. exists rest. split; [reflexivity|].
    now destruct (splitLines rest).
  - rewrite H in C. discriminate.
Qed.

Lemma splitLines_nil (t tl : bytes) :
  splitLines t = ([], tl) -> cutLine t = None /\ tl = t.
Proof.
  intro H. pose proof (splitLines_cut t) as C.
  destruct (cutLine t) as [[line rest]|].
  - rewrite H in C. discriminate.
  - rewrite H in C. inversion C. auto.
Qed.

Lemma ReadBytes_loop_steady (cs : list bytes) :
  forall i pend fin n,
    steady cs i = true -> i <= maxConsecutiveEmptyReads ->
    match cutLine (pend ++ concat cs) with
    | Some (line, rest) =>
        exists r', ReadBytes_loop i pend cs fin n = ((line, None), r') /\
                   avail r' = rest /\
                   steady (chunks (rd r')) maxConsecutiveEmptyReads = true /\
                   final (rd r') = fin /\
                   calls (rd r') + length (chunks (rd r')) = n + length cs
    | None =>
        ReadBytes_loop i pend cs fin n =
        ((pend ++ concat cs, Some fin),
         mkBufio (mkReader [] fin (S (n + length cs))) [])
    end.
Proof.
  induction cs as [|c cs IH]; intros i pend fin n Hs Hi.
  - destruct i; [discriminate|]. cbn [ReadBytes_loop concat]. rewrite app_nil_r.
    destruct (cutLine pend) as [[line rest]|].
    + eexists. split; [reflexivity|]. unfold avail; cbn.
      rewrite app_nil_r. auto.
    + cbn. now rewrite Nat.add_0_r.
  - destruct i; [destruct c; discriminate|].
    rewrite cutLine_app. cbn [ReadBytes_loop].
    destruct (cutLine pend) as [[line rest]|] eqn:E.
    + eexists. split; [reflexivity|]. unfold avail; cbn [rd chunks pending final calls].
      repeat split; try reflexivity. apply (steady_mono _ Hs Hi).
    + destruct c as [|x c].
      * change (steady cs i = true) in Hs.
        assert (Hi' : i <= maxConsecutiveEmptyReads) by lia.
        specialize (IH i pend fin (S n) Hs Hi').
        rewrite cutLine_app, E in IH. cbn [concat app].
        destruct (cutLine (concat cs)) as [[line rest]|].
        -- destruct IH as (r' & E1 & E2 & E3 & E4 & E5).
           exists r'. rewrite E1. repeat split; auto. cbn [length]. lia.
        -- rewrite IH. cbn [length]. now rewrite Nat.add_succ_comm.
      * change (steady cs maxConsecutiveEmptyReads = true) in Hs.
        specialize (IH maxConsecutiveEmptyReads (pend ++ x :: c) fin (S n) Hs
                       (le_n _)).
        cbn [concat]. rewrite <- app_assoc in IH.
        rewrite cutLine_app, E in IH.
        destruct (cutLine ((x :: c) ++ concat cs)) as [[line rest]|].
        -- destruct IH as (r' & E1 & E2 & E3 & E4 & E5).
           exists r'. rewrite E1. repeat split; auto. cbn [length]. lia.
        -- rewrite IH. cbn [length]. now rewrite Nat.add_succ_comm.
Qed.

Lemma Text_NewReader (r : Reader) :
  progressing r ->
  Text (NewReader r) (linesOf (concat (chunks r)))
       (snd (splitLines (concat (chunks r)))) (final r)
       (calls r + length (chunks r)).
Proof.
  intro H. unfold Text, avail, linesOf; cbn.
  repeat split; auto. now destruct (splitLines (concat (chunks r))).
Qed.

Lemma ReadBytes_line (r : bufioReader) l ls tl fin N :
  Text r (l :: ls) tl fin N ->
  exists r', ReadBytes r = ((l, None), r') /\ Text r' ls tl fin N.
Proof.
  intros (Hs & Hl & Hf & Hn). apply splitLines_cons in Hl as (rest & Hc & Hr).
  pose proof (@ReadBytes_loop_steady (chunks (rd r)) maxConsecutiveEmptyReads
                (pending r) (final (rd r)) (calls (rd r)) Hs (le_n _)) as H.
  fold (avail r) in H. rewrite Hc in H.
  destruct H as (r' & E1 & E2 & E3 & E4 & E5).
  exists r'. split; [exact E1|]. unfold Text. rewrite E2. repeat split; congruence.
Qed.

Lemma ReadBytes_end (r : bufioReader) tl fin N :
  Text r [] tl fin N ->
  ReadBytes r = ((tl, Some fin), mkBufio (mkReader [] fin (S N)) []).
Proof.
  intros (Hs & Hl & Hf & Hn). apply splitLines_nil in Hl as (Hc & ->).
  pose proof (@ReadBytes_loop_steady (chunks (rd r)) maxConsecutiveEmptyReads
                (pending r) (final (rd r)) (calls (rd r)) Hs (le_n _)) as H.
  fold (avail r) in H. rewrite Hc in H. unfold ReadBytes. rewrite H.
  now rewrite Hf, Hn.
Qed.

Lemma Text_end (fin : error) (N : nat) :
  Text (mkBufio (mkReader [] fin N) []) [] [] fin N.
Proof. unfold Text, avail; cbn. repeat split; auto. Qed.

Lemma ReadBytes_loop_error (cs : list bytes) :
  forall i pend fin n line e r',
    ReadBytes_loop i pend cs fin n = ((line, Some e), r') ->
    e = ErrNoProgress \/
    (e = fin /\ exists k, r' = mkBufio (mkReader [] fin k) []).
Proof.
  induction cs as [|c cs IH]; intros i pend fin n line e r' H;
    cbn [ReadBytes_loop] in H; destruct (cutLine pend) as [[l rest]|];
    try discriminate; destruct i; inversion H; subst; auto.
  - right. split; [reflexivity|]. now eexists.
  - destruct c; apply IH in H; exact H.
Qed.

Lemma Reads_total (n : nat) :
  forall r, remaining r <= n -> exists ls tl e r', Reads r ls tl e r'.
Proof.
  induction n as [|n IH]; intros r Hn;
    destruct (ReadBytes r) as [[line [e|]] r1] eqn:E;
    try (exists [], line, e, r1; now constructor);
    apply ReadBytes_remaining in E as E'; destruct E' as [_ Hlt];
    specialize (Hlt eq_refl); [lia|].
  destruct (IH r1 ltac:(lia)) as (ls & tl & e & r' & HR).
  exists (line :: ls), tl, e, r'. econstructor; eassumption.
Qed.

Lemma Reads_functional r ls1 tl1 e1 r1 :
  Reads r ls1 tl1 e1 r1 ->
  forall ls2 tl2 e2 r2, Reads r ls2 tl2 e2 r2 ->
                        ls1 = ls2 /\ tl1 = tl2 /\ e1 = e2 /\ r1 = r2.
Proof.
  induction 1 as [r tl e r' E | r line ra ls tl e r' E HR IH];
    intros ls2 tl2 e2 r2 H2;
    inversion H2 as [? ? ? ? E2 | ? ? ? ? ? ? ? E2 HR2]; subst;
    rewrite E in E2; inversion E2; subst; auto.
  destruct (IH _ _ _ _ HR2) as (-> & -> & -> & ->). auto.
Qed.

Lemma Reads_EOF_end r ls tl r' :
  Reads r ls tl EOF r' -> exists k, r' = mkBufio (mkReader [] EOF k) [].
Proof.
  intro H. remember EOF as e eqn:He. induction H as [r tl e r' E|]; [|auto].
  subst e. apply ReadBytes_loop_error in E as [E|[E1 E]]; [discriminate|].
  now rewrite <- E1 in E.
Qed.

Lemma Text_Reads (ls : list bytes) :
  forall r tl fin N,
    Text r ls tl fin N -> Reads r ls tl fin (mkBufio (mkReader [] fin (S N)) []).
Proof.
  induction ls as [|l ls IH]; intros r tl fin N HT.
  - constructor. now apply ReadBytes_end.
  - destruct (ReadBytes_line HT) as (r' & E & HT').
    econstructor; [exact E | now apply IH].
Qed.

Section FramingFacts.
Context {L : GoLib}.

Lemma frameOne_length (ls : list bytes) :
  forall buf b ls', frameOne buf ls = (b, Some ls') -> length ls' < length ls.
Proof.
  induction ls as [|l ls IH]; intros buf b ls' H; simpl in H; [discriminate|].
  assert (Hrec : forall buf', frameOne buf' ls = (b, Some ls') ->
                              length ls' < length (l :: ls)).
  { intros buf' H'. apply IH in H'. simpl. lia. }
  destruct (HasPrefix l (bs ":")); [now apply Hrec in H|].
  destruct (length (TrimSpace l) =? 0).
  - destruct (0 <? length buf); [|now apply Hrec in H].
    inversion H; subst. simpl. lia.
  - destruct (HasPrefix l (bs "data: ")); now apply Hrec in H.
Qed.

Lemma frameLines_frameOne (ls : list bytes) :
  forall buf,
    frameLines buf ls =
    match frameOne buf ls with
    | (b, Some ls') => let (evs, b') := frameLines [] ls' in (b :: evs, b')
    | (b, None) => ([], b)
    end.
Proof.
  induction ls as [|l ls IH]; intro buf; simpl; [reflexivity|].
  destruct (HasPrefix l (bs ":")); [apply IH|].
  destruct (length (TrimSpace l) =? 0).
  - destruct (0 <? length buf); [reflexivity | apply IH].
  - destruct (HasPrefix l (bs "data: ")); apply IH.
Qed.

(** One call of [readEvent], from the lines it reads. *)
Lemma readEvent_loop_Reads (ls : list bytes) :
  forall r buf tl e rE,
    Reads r ls tl e rE ->
    exists fuel s',
      readEvent_loop fuel r buf =
      Some (match frameOne buf ls with
            | (b, Some _) => (b, None)
            | (b, None) => if error_eqb e EOF && (0 <? length b)
                           then (b, None) else ([], Some e)
            end, s') /\
      match frameOne buf ls with
      | (_, Some ls') => Reads (reader s') ls' tl e rE
      | (_, None) => reader s' = rE
      end.
Proof.
  induction ls as [|l ls IH]; intros r buf tl e rE HR; inversion HR; subst.
  - exists 1. cbn [readEvent_loop frameOne].
    match goal with H : ReadBytes r = _ |- _ => rewrite H end.
    destruct (error_eqb e EOF && (0 <? length buf));
      eexists; split; reflexivity.
  - match goal with H : ReadBytes r = _ |- _ => rename H into ER end.
    match goal with H : Reads r1 _ _ _ _ |- _ => rename H into HR' end.
    cbn [frameOne].
    destruct (HasPrefix l (bs ":")) eqn:E1.
    { destruct (IH r1 buf tl e rE HR') as (fuel & s' & E & HS).
      exists (S fuel), s'. cbn [readEvent_loop]. rewrite ER, E1. auto. }
    destruct (length (TrimSpace l) =? 0) eqn:E2.
    { destruct (0 <? length buf) eqn:E3.
      - exists 1. eexists. cbn [readEvent_loop]. rewrite ER, E1, E2, E3.
        split; [reflexivity | exact HR'].
      - destruct (IH r1 buf tl e rE HR') as (fuel & s' & E & HS).
        exists (S fuel), s'. cbn [readEvent_loop]. rewrite ER, E1, E2, E3. auto. }
    destruct (HasPrefix l (bs "data: ")) eqn:E3.
    + destruct (IH r1 (buf ++ TrimSpace (TrimPrefix l (bs "data: "))) tl e rE HR')
        as (fuel & s' & E & HS).
      exists (S fuel), s'. cbn [readEvent_loop]. rewrite ER, E1, E2, E3. auto.
    + destruct (IH r1 buf tl e rE HR') as (fuel & s' & E & HS).
      exists (S fuel), s'. cbn [readEvent_loop]. rewrite ER, E1, E2, E3. auto.
Qed.

Lemma readEvent_Reads (s : streamReader) ls tl e rE :
  Reads (reader s) ls tl e rE ->
  exists s',
    readEvent s =
    Some (match frameOne [] ls with
          | (b, Some _) => (b, None)
          | (b, None) => if error_eqb e EOF && (0 <? length b)
                         then (b, None) else ([], Some e)
          end, s') /\
    match frameOne [] ls with
    | (_, Some ls') => Reads (reader s') ls' tl e rE
    | (_, None) => reader s' = rE
    end.
Proof.
  intro HR. destruct (readEvent_loop_Reads [] HR) as (fuel & s' & E & HS).
  exists s'. split; [exact (readEvent_fuel _ _ E) | exact HS].
Qed.

Lemma framesOf_frameOne (fin : error) (ls : list bytes) :
  framesOf fin ls =
  match frameOne [] ls with
  | (b, Some ls') => b :: framesOf fin ls'
  | (b, None) => if error_eqb fin EOF && (0 <? length b) then [b] else []
  end.
Proof.
  unfold framesOf. rewrite frameLines_frameOne.
  destruct (frameOne [] ls) as [b [ls'|]]; [|reflexivity].
  destruct (frameLines [] ls') as [evs b'].
  now destruct (error_eqb fin EOF && (0 <? length b')).
Qed.

Lemma flushes_frameOne (fin : error) (ls : list bytes) :
  flushes fin ls =
  match frameOne [] ls with
  | (b, Some ls') => flushes fin ls'
  | (b, None) => error_eqb fin EOF && (0 <? length b)
  end.
Proof.
  unfold flushes. rewrite frameLines_frameOne.
  destruct (frameOne [] ls) as [b [ls'|]]; [|reflexivity].
  now destruct (frameLines [] ls') as [evs b'].
Qed.

(** The events of a stream are those of the lines read from it. *)
Lemma events_Reads (n : nat) :
  forall ls s tl e rE,
    length ls <= n ->
    Reads (reader s) ls tl e rE ->
    exists tr t,
      events s = Some (tr, t) /\
      map fst tr = framesOf e ls /\
      fst t = e /\
      reader (snd t) = if flushes e ls then snd (ReadBytes rE) else rE.
Proof.
  induction n as [|n IH]; intros ls s tl e rE Hn HR.
  - destruct ls; [|simpl in Hn; lia].
    destruct (readEvent_Reads s HR) as (s' & E & HS).
    rewrite events_step, E, framesOf_frameOne, flushes_frameOne.
    cbn [frameOne] in *. rewrite andb_false_r.
    eexists _, _. repeat split. exact HS.
  - destruct (readEvent_Reads s HR) as (s' & E & HS).
    rewrite events_step, E, framesOf_frameOne, flushes_frameOne.
    destruct (frameOne [] ls) as [b [ls'|]] eqn:EF.
    + apply frameOne_length in EF.
      destruct (IH ls' s' tl e rE ltac:(lia) HS) as (tr & t & E' & H1 & H2 & H3).
      rewrite E'. exists ((b, s') :: tr), t. cbn [map fst].
      repeat split; auto. now rewrite H1.
    + destruct (error_eqb e EOF && (0 <? length b)) eqn:Efl.
      * apply andb_true_iff in Efl as [Ee _]. apply error_eqb_eq in Ee. subst e.
        destruct (Reads_EOF_end HR) as [k ->].
        assert (HR' : Reads (reader s') [] [] EOF
                            (mkBufio (mkReader [] EOF (S k)) []))
          by (rewrite HS; now constructor).
        destruct (readEvent_Reads s' HR') as (s'' & E'' & HS'').
        cbn [frameOne] in *. rewrite andb_false_r in E''.
        rewrite events_step, E''.
        eexists _, _. repeat split. exact HS''.
      * eexists _, _. repeat split. exact HS.
Qed.

(** The events of a fresh framer over a stream that makes progress. *)
Lemma events_progressing (r : Reader) :
  progressing r ->
  exists tr t,
    events (newStreamReader r) = Some (tr, t) /\
    map fst tr = framesOf (final r) (linesOf (concat (chunks r))) /\
    fst t = final r /\
    reader (snd t) =
    mkBufio (mkReader [] (final r)
               (if flushes (final r) (linesOf (concat (chunks r)))
                then S (S (calls r + length (chunks r)))
                else S (calls r + length (chunks r)))) [].
Proof.
  intro H.
  destruct (events_Reads (newStreamReader r) (le_n _)
              (Text_Reads (Text_NewReader H))) as (tr & t & E & H1 & H2 & H3).
  exists tr, t. repeat split; auto. rewrite H3.
  now destruct (flushes (final r) (linesOf (concat (chunks r)))).
Qed.
End FramingFacts.

(** ** The aggregator over a framed sequence *)

Lemma append_nil_r (s : string) : String.append s EmptyString = s.
Proof. induction s as [|a s IH]; simpl; [reflexivity | now rewrite IH]. Qed.

Lemma append_assoc (s1 s2 s3 : string) :
  String.append (String.append s1 s2) s3 = String.append s1 (String.append s2 s3).
Proof. induction s1 as [|a s1 IH]; simpl; [reflexivity | now rewrite IH]. Qed.

Lemma join_app (l1 l2 : list string) :
  join (l1 ++ l2) = String.append (join l1) (join l2).
Proof.
  induction l1 as [|x l1 IH]; simpl; [reflexivity|].
  now rewrite IH, append_assoc.
Qed.

Lemma bytes_is_DONE (data : bytes) :
  String.eqb (string_of_list_byte data) "[DONE]" = true <-> data = bs "[DONE]".
Proof.
  rewrite String.eqb_eq. unfold bs. split; intro H.
  - rewrite <- H. now rewrite list_byte_of_string_of_list_byte.
  - rewrite H. now rewrite string_of_list_byte_of_string.
Qed.

Lemma length_zero_nil (data : bytes) : (length data =? 0) = true <-> data = [].
Proof.
  rewrite Nat.eqb_eq. split; [apply length_zero_iff_nil | now intros ->].
Qed.

Section AggregateFacts.
Context {L : GoLib}.

Lemma skipped_iff (data : bytes) :
  skipped data = true <-> data = [] \/ data = bs "[DONE]".
Proof.
  unfold skipped. rewrite orb_true_iff, length_zero_nil, bytes_is_DONE. tauto.
Qed.

(** A payload is well formed when it is empty, the terminator, or decodes. *)
Lemma malformed_false_iff (data : bytes) :
  malformed data = false <->
  data = [] \/ data = bs "[DONE]" \/ exists resp, json_Unmarshal data = Some resp.
Proof.
  unfold malformed. rewrite andb_false_iff, negb_false_iff, skipped_iff.
  destruct (json_Unmarshal data) as [resp|]; split.
  - intros _. right; right. now exists resp.
  - auto.
  - intros [H|H]; [tauto | discriminate].
  - intros [H|[H|[resp H]]]; [tauto | tauto | discriminate].
Qed.

Lemma malformed_true_iff (data : bytes) :
  malformed data = true <->
  data <> [] /\ data <> bs "[DONE]" /\ json_Unmarshal data = None.
Proof.
  split.
  - intro H. destruct (json_Unmarshal data) as [resp|] eqn:E.
    + assert (malformed data = false) by (apply malformed_false_iff; eauto).
      congruence.
    + repeat split; intro Hd;
        assert (malformed data = false) by (apply malformed_false_iff; auto);
        congruence.
  - intros (H1 & H2 & H3). destruct (malformed data) eqn:E; [reflexivity|].
    apply malformed_false_iff in E as [E|[E|[resp E]]]; congruence.
Qed.

Lemma appendChoices_fragments (cs : list streamChoice) :
  forall result,
    appendChoices result cs =
    String.append result
      (join (filter (fun c => negb (String.eqb c EmptyString))
                    (map (fun choice => Content (Delta choice)) cs))).
Proof.
  induction cs as [|c cs IH]; intro result; simpl.
  - now rewrite append_nil_r.
  - destruct (String.eqb (Content (Delta c)) EmptyString); simpl.
    + apply IH.
    + now rewrite IH, append_assoc.
Qed.

Lemma aggregate_cons (result : string) (data : bytes) (ps : list bytes) e :
  malformed data = false ->
  aggregate result (data :: ps) e =
  aggregate (String.append result (join (fragmentsOf data))) ps e.
Proof.
  intro H. unfold malformed in H. unfold fragmentsOf. cbn [aggregate].
  unfold skipped in *.
  destruct (length data =? 0); simpl in *; [now rewrite append_nil_r|].
  destruct (String.eqb (string_of_list_byte data) "[DONE]"); simpl in *;
    [now rewrite append_nil_r|].
  destruct (json_Unmarshal data) as [resp|]; [|discriminate].
  now rewrite appendChoices_fragments.
Qed.

Lemma aggregate_malformed (result : string) (data : bytes) (ps : list bytes) e :
  malformed data = true ->
  aggregate result (data :: ps) e = (EmptyString, Some ErrStreamCorrupted).
Proof.
  intro H. unfold malformed, skipped in H. cbn [aggregate].
  destruct (length data =? 0); [discriminate|].
  destruct (String.eqb (string_of_list_byte data) "[DONE]"); [discriminate|].
  now destruct (json_Unmarshal data).
Qed.

(** With no malformed payload the aggregator returns the fragments of all
    payloads, joined in order, or the error that ended the sequence. *)
Lemma aggregate_wellformed (ps : list bytes) :
  forall result e,
    Forall (fun p => malformed p = false) ps ->
    aggregate result ps e =
    if error_eqb e EOF
    then (String.append result (join (flat_map fragmentsOf ps)), None)
    else (EmptyString, Some e).
Proof.
  induction ps as [|p ps IH]; intros result e H.
  - simpl. now rewrite append_nil_r.
  - inversion H; subst. rewrite aggregate_cons by assumption.
    rewrite IH by assumption. cbn [flat_map].
    now rewrite join_app, append_assoc.
Qed.

Lemma aggregate_first_malformed (pre : list bytes) :
  forall result p post e,
    Forall (fun p => malformed p = false) pre -> malformed p = true ->
    aggregate result (pre ++ p :: post) e = (EmptyString, Some ErrStreamCorrupted).
Proof.
  induction pre as [|x pre IH]; intros result p post e H Hp.
  - now apply aggregate_malformed.
  - inversion H; subst. rewrite <- app_comm_cons, aggregate_cons by assumption.
    now apply IH.
Qed.

Lemma absorbed_aggregate (result : string) (data : bytes) (ps : list bytes) e :
  absorbed data = true ->
  aggregate result (data :: ps) e = aggregate result ps e.
Proof.
  intro H. unfold absorbed in H.
  assert (Hm : malformed data = false).
  { unfold malformed. destruct (skipped data); [reflexivity|]. simpl in *.
    now destruct (json_Unmarshal data). }
  rewrite aggregate_cons by assumption. unfold fragmentsOf.
  destruct (skipped data); simpl in *; [now rewrite append_nil_r|].
  destruct (json_Unmarshal data) as [resp|]; [|discriminate].
  destruct (fragments resp); [|discriminate]. now rewrite append_nil_r.
Qed.

Lemma aggregate_filter_absorbed (ps : list bytes) :
  forall result e,
    aggregate result (filter (fun p => negb (absorbed p)) ps) e =
    aggregate result ps e.
Proof.
  induction ps as [|p ps IH]; intros result e; [reflexivity|].
  cbn [filter]. destruct (absorbed p) eqn:E; cbn [negb].
  - now rewrite IH, absorbed_aggregate.
  - cbn [aggregate].
    destruct (length p =? 0); [apply IH|].
    destruct (String.eqb (string_of_list_byte p) "[DONE]"); [apply IH|].
    destruct (json_Unmarshal p); [apply IH | reflexivity].
Qed.

Lemma stopState_wellformed (tr : list (bytes * streamReader)) t :
  Forall (fun p => malformed p = false) (map fst tr) -> stopState tr t = snd t.
Proof.
  induction tr as [|[p s] tr IH]; intro H; [reflexivity|].
  inversion H; subst. simpl in *. rewrite H2. now apply IH.
Qed.

Lemma stopState_first_malformed (pre : list (bytes * streamReader)) :
  forall p sp post t,
    Forall (fun p => malformed p = false) (map fst pre) -> malformed p = true ->
    stopState (pre ++ (p, sp) :: post) t = sp.
Proof.
  induction pre as [|[x s] pre IH]; intros p sp post t H Hp.
  - simpl. now rewrite Hp.
  - inversion H; subst. simpl in *. rewrite H2. now apply IH.
Qed.

(** [processStream] is the aggregator run over the events of the stream,
    and stops reading at the first malformed payload. *)
Lemma processStream_loop_events (fuel : nat) :
  forall s result tr t,
    events_loop fuel s = Some (tr, t) ->
    processStream_loop fuel s result =
    Some (aggregate result (map fst tr) (fst t), stopState tr t).
Proof.
  induction fuel as [|fuel IH]; intros s result tr t H; [discriminate|].
  cbn [events_loop processStream_loop] in *.
  destruct (readEvent s) as [[[data err] s']|]; [|discriminate].
  destruct err as [e|].
  - inversion H; subst. cbn. now destruct (error_eqb e EOF).
  - destruct (events_loop fuel s') as [[tr' t']|] eqn:E; [|discriminate].
    inversion H; subst. cbn [map fst aggregate stopState].
    unfold malformed, skipped.
    destruct (length data =? 0); cbn [orb negb andb]; [now apply IH|].
    destruct (String.eqb (string_of_list_byte data) "[DONE]");
      cbn [orb negb andb]; [now apply IH|].
    destruct (json_Unmarshal data) as [resp|]; [now apply IH | reflexivity].
Qed.

Lemma processStream_events (r : Reader) (options : Options) tr t :
  events (newStreamReader r) = Some (tr, t) ->
  processStream r options =
  Some (aggregate EmptyString (map fst tr) (fst t), stopState tr t).
Proof. intro H. now apply processStream_loop_events. Qed.

(** [processStream] always returns. *)
Lemma processStream_total (r : Reader) (options : Options) :
  exists res s', processStream r options = Some (res, s').
Proof.
  destruct (events_total (newStreamReader r)) as (tr & t & E).
  rewrite (processStream_events r options E). eexists _, _. reflexivity.
Qed.

(** [readEvent] returns no data with an error. *)
Lemma readEvent_loop_error (fuel : nat) :
  forall r buf data e s',
    readEvent_loop fuel r buf = Some ((data, Some e), s') -> data = [].
Proof.
  induction fuel as [|fuel IH]; intros r buf data e s' H; [discriminate|].
  cbn [readEvent_loop] in H.
  destruct (ReadBytes r) as [[line err] r'].
  destruct err as [e'|].
  - destruct (error_eqb e' EOF && (0 <? length buf)); now inversion H.
  - destruct (HasPrefix line (bs ":")); [now apply IH in H|].
    destruct (length (TrimSpace line) =? 0).
    + destruct (0 <? length buf); [discriminate | now apply IH in H].
    + destruct (HasPrefix line (bs "data: ")); now apply IH in H.
Qed.
End AggregateFacts.

Section Claims_Aggregator.
Context {L : GoLib}.

Lemma first_malformed (tr : list (bytes * streamReader)) :
  Exists (fun ev => malformed (fst ev) = true) tr ->
  exists pre p sp post,
    tr = pre ++ (p, sp) :: post /\
    Forall (fun q => malformed q = false) (map fst pre) /\
    malformed p = true.
Proof.
  induction tr as [|[x s] tr IH]; intro H; [inversion H|].
  destruct (malformed x) eqn:E.
  - exists [], x, s, tr. repeat split; auto.
  - inversion H as [? ? H1|? ? H1]; subst; [simpl in H1; congruence|].
    destruct (IH H1) as (pre & p & sp & post & -> & Hpre & Hp).
    exists ((x, s) :: pre), p, sp, post. repeat split; auto.
    simpl. now constructor.
Qed.

Lemma Forall_wellformed (ps : list bytes) :
  Forall (fun p => p = [] \/ p = bs "[DONE]" \/
                   exists resp, json_Unmarshal p = Some resp) ps ->
  Forall (fun p => malformed p = false) ps.
Proof.
  intro H. eapply Forall_impl; [|exact H].
  intros p Hp. now apply malformed_false_iff.
Qed.

Lemma last_nonempty_default (A : Type) (x : A) (l : list A) (d1 d2 : A) :
  last (x :: l) d1 = last (x :: l) d2.
Proof.
  revert x. induction l as [|y l IH]; intro x; [reflexivity|].
  change (last (y :: l) d1 = last (y :: l) d2). apply IH.
Qed.

(** The last call of [readEvent] in a sequence of events is the one that
    returned the error, with no data. *)
Lemma events_loop_last (fuel : nat) :
  forall s tr t,
    events_loop fuel s = Some (tr, t) ->
    readEvent (last (map snd tr) s) = Some (([], Some (fst t)), snd t).
Proof.
  induction fuel as [|fuel IH]; intros s tr t H; [discriminate|].
  cbn [events_loop] in H.
  destruct (readEvent s) as [[[data err] s']|] eqn:E; [|discriminate].
  destruct err as [e|].
  - inversion H; subst. cbn [map last snd fst]. rewrite E.
    unfold readEvent in E. apply readEvent_loop_error in E. now subst.
  - destruct (events_loop fuel s') as [[tr' t']|] eqn:E'; [|discriminate].
    inversion H; subst. apply IH in E'.
    cbn [map snd]. destruct tr' as [|ev tr']; [exact E'|].
    cbn [map] in *. change (last (s' :: snd ev :: map snd tr') s)
      with (last (snd ev :: map snd tr') s).
    now rewrite (last_nonempty_default _ _ s s').
Qed.

(** C1.  When every payload framed from the stream is empty, the
    terminator [[DONE]] or decodes as a chunk, and the reads end with a
    clean end of input, [processStream] returns with no error the
    concatenation of the non-empty delta fragments of the decoded chunks,
    in framing order and, within a chunk, in the order of its choice
    entries. *)
Theorem C1_processStream_concatenates_fragments
        (r : Reader) (options : Options) tr t :
  events (newStreamReader r) = Some (tr, t) ->
  fst t = EOF ->
  Forall (fun p => p = [] \/ p = bs "[DONE]" \/
                   exists resp, json_Unmarshal p = Some resp) (map fst tr) ->
  processStream r options =
  Some ((join (flat_map fragmentsOf (map fst tr)), None), snd t).
Proof.
  intros He Ht Hw. apply Forall_wellformed in Hw.
  rewrite (processStream_events r options He).
  rewrite aggregate_wellformed, stopState_wellformed by assumption.
  now rewrite Ht.
Qed.

(** C2.  When some framed payload that is neither empty nor [[DONE]] fails
    to decode, [processStream] stops at the first such payload: it returns
    the empty string with [ErrStreamCorrupted], whatever was accumulated
    before and whatever follows, and the framer is left in the state of
    the call that returned that payload. *)
Theorem C2_malformed_payload_aborts
        (r : Reader) (options : Options) tr t :
  events (newStreamReader r) = Some (tr, t) ->
  Exists (fun ev => fst ev <> [] /\ fst ev <> bs "[DONE]" /\
                    json_Unmarshal (fst ev) = None) tr ->
  exists pre p sp post,
    tr = pre ++ (p, sp) :: post /\
    Forall (fun q => q = [] \/ q = bs "[DONE]" \/
                     exists resp, json_Unmarshal q = Some resp) (map fst pre) /\
    (p <> [] /\ p <> bs "[DONE]" /\ json_Unmarshal p = None) /\
    processStream r options = Some ((EmptyString, Some ErrStreamCorrupted), sp).
Proof.
  intros He Hex.
  assert (Hex' : Exists (fun ev => malformed (fst ev) = true) tr).
  { eapply Exists_impl; [|exact Hex]. intros ev Hev.
    now apply malformed_true_iff. }
  destruct (first_malformed Hex') as (pre & p & sp & post & -> & Hpre & Hp).
  exists pre, p, sp, post. split; [reflexivity|]. split.
  { eapply Forall_impl; [|exact Hpre]. intros q Hq.
    now apply malformed_false_iff. }
  split; [now apply malformed_true_iff|].
  rewrite (processStream_events r options He).
  rewrite map_app. cbn [map fst].
  rewrite aggregate_first_malformed by assumption.
  now rewrite stopState_first_malformed by assumption.
Qed.

(** C7.  Absorbed payloads (empty, [[DONE]], chunks with an empty choices
    list or with empty fragments only) can be dropped from the framed
    sequence without changing what [processStream] returns, and a stream
    of absorbed payloads only yields the empty string with no error; the
    payloads framed after a [[DONE]] are decoded and appended like those
    before it, the loop running until the framer reports the end of
    input; and a stream with no [[DONE]] at all aggregates up to its
    clean end. *)
Theorem C7_absorbed_payloads_and_terminator
        (r : Reader) (options : Options) tr t :
  events (newStreamReader r) = Some (tr, t) ->
  option_map fst (processStream r options) =
    Some (aggregate EmptyString
            (filter (fun p => negb (absorbed p)) (map fst tr)) (fst t)) /\
  (fst t = EOF -> Forall (fun p => absorbed p = true) (map fst tr) ->
   processStream r options = Some ((EmptyString, None), snd t)) /\
  (forall pre post,
      map fst tr = pre ++ bs "[DONE]" :: post -> fst t = EOF ->
      Forall (fun p => p = [] \/ p = bs "[DONE]" \/
                       exists resp, json_Unmarshal p = Some resp) (pre ++ post) ->
      processStream r options =
      Some ((String.append (join (flat_map fragmentsOf pre))
                           (join (flat_map fragmentsOf post)), None), snd t)) /\
  (fst t = EOF -> ~ In (bs "[DONE]") (map fst tr) ->
   Forall (fun p => p = [] \/ exists resp, json_Unmarshal p = Some resp)
          (map fst tr) ->
   processStream r options =
   Some ((join (flat_map fragmentsOf (map fst tr)), None), snd t)).
Proof.
  intro He. rewrite (processStream_events r options He). cbn [option_map fst].
  split; [now rewrite aggregate_filter_absorbed|]. split; [|split].
  - intros Ht Ha.
    assert (Hw : Forall (fun p => malformed p = false) (map fst tr)).
    { eapply Forall_impl; [|exact Ha]. intros p Hp. unfold absorbed in Hp.
      unfold malformed. destruct (skipped p); [reflexivity|]. simpl in *.
      now destruct (json_Unmarshal p). }
    rewrite stopState_wellformed by assumption.
    rewrite <- aggregate_filter_absorbed.
    replace (filter (fun p => negb (absorbed p)) (map fst tr)) with (@nil bytes).
    + cbn. now rewrite Ht.
    + symmetry. clear - Ha. induction Ha as [|p ps Hp _ IH]; [reflexivity|].
      cbn [filter]. now rewrite Hp.
  - intros pre post Hs Ht Hw. apply Forall_wellformed in Hw.
    assert (Hw' : Forall (fun p => malformed p = false) (map fst tr)).
    { rewrite Hs. apply Forall_app in Hw as [H1 H2]. apply Forall_app.
      split; [exact H1|]. constructor; [|exact H2].
      apply malformed_false_iff. auto. }
    rewrite aggregate_wellformed, stopState_wellformed by assumption.
    rewrite Ht, Hs, flat_map_app. cbn [error_eqb flat_map].
    replace (fragmentsOf (bs "[DONE]")) with (@nil string) by reflexivity.
    now rewrite join_app.
  - intros Ht _ Hw.
    assert (Hw' : Forall (fun p => malformed p = false) (map fst tr)).
    { eapply Forall_impl; [|exact Hw]. intros p Hp.
      apply malformed_false_iff. destruct Hp as [Hp|Hp]; auto. }
    rewrite aggregate_wellformed, stopState_wellformed by assumption.
    now rewrite Ht.
Qed.

(** C8.  A stream whose reads make progress and end with an error other
    than the clean end of input: the last [readEvent] returns that very
    error with no data, [processStream] returns it with the empty string
    whatever was accumulated, and the failing [Read] is made exactly
    once. *)
Theorem C8_read_failure_propagated
        (r : Reader) (options : Options) tr t :
  events (newStreamReader r) = Some (tr, t) ->
  progressing r ->
  final r <> EOF ->
  Forall (fun p => p = [] \/ p = bs "[DONE]" \/
                   exists resp, json_Unmarshal p = Some resp) (map fst tr) ->
  readEvent (last (map snd tr) (newStreamReader r)) =
    Some (([], Some (final r)), snd t) /\
  processStream r options = Some ((EmptyString, Some (final r)), snd t) /\
  calls (rd (reader (snd t))) = calls r + length (chunks r) + 1.
Proof.
  intros He Hp Hf Hw. apply Forall_wellformed in Hw.
  destruct (events_progressing Hp) as (tr' & t' & He' & _ & Ht & Hc).
  rewrite He in He'. inversion He'; subst tr' t'. clear He'.
  split; [|split].
  - unfold events in He. apply events_loop_last in He. now rewrite Ht in He.
  - rewrite (processStream_events r options He).
    rewrite aggregate_wellformed, stopState_wellformed by assumption.
    rewrite Ht. apply error_eqb_neq in Hf. now rewrite Hf.
  - rewrite Hc. unfold flushes. apply error_eqb_neq in Hf. rewrite Hf.
    cbn. lia.
Qed.
End Claims_Aggregator.

(** ** Lines of a text *)

Lemma lineClosed_tail (c : byte) (a : bytes) : lineClosed (c :: a) -> lineClosed a.
Proof.
  unfold lineClosed. simpl. destruct (splitLines a) as [ls tl].
  destruct (Byte.eqb c newline); [auto|].
  destruct ls; simpl; [discriminate | auto].
Qed.

Lemma splitLines_app (a b : bytes) :
  lineClosed a ->
  splitLines (a ++ b) = (linesOf a ++ linesOf b, snd (splitLines b)).
Proof.
  unfold linesOf. induction a as [|c a IH]; intro H.
  - simpl. now destruct (splitLines b).
  - specialize (IH (lineClosed_tail H)). unfold lineClosed in H.
    simpl in *. rewrite IH. destruct (splitLines a) as [ls tl].
    destruct (Byte.eqb c newline); [reflexivity|].
    destruct ls as [|l ls]; [discriminate | reflexivity].
Qed.

Lemma splitLines_line (c : bytes) : isLine c -> splitLines c = ([c], []).
Proof.
  intro H. pose proof (splitLines_cut c) as C. now rewrite H in C.
Qed.

Lemma splitLines_tail (tl : bytes) : cutLine tl = None -> splitLines tl = ([], tl).
Proof. intro H. pose proof (splitLines_cut tl) as C. now rewrite H in C. Qed.

Lemma byte_eqb_false (x y : byte) : Byte.eqb x y = false <-> x <> y.
Proof.
  split; [apply Byte.eqb_false|].
  intro H. destruct (Byte.eqb x y) eqn:E; [|reflexivity].
  apply byte_dec_bl in E. contradiction.
Qed.

(** A line is a run of bytes other than newline followed by a newline. *)
Lemma isLine_iff (c : bytes) :
  isLine c <-> exists body, c = body ++ [newline] /\ ~ In newline body.
Proof.
  unfold isLine. split.
  - induction c as [|x c IH]; simpl; [discriminate|].
    destruct (Byte.eqb x newline) eqn:E.
    + intro H. inversion H; subst. apply byte_dec_bl in E. subst.
      exists []. split; [reflexivity | intros []].
    + destruct (cutLine c) as [[l r]|]; [|discriminate].
      intro H. inversion H; subst.
      destruct (IH eq_refl) as (body & -> & Hb).
      exists (x :: body). split; [reflexivity|].
      apply byte_eqb_false in E. intros [H1|H1]; [congruence | contradiction].
  - intros (body & -> & Hb). induction body as [|x body IH]; [reflexivity|].
    simpl. assert (E : Byte.eqb x newline = false).
    { apply byte_eqb_false. intro Hx. apply Hb. now left. }
    rewrite E, IH; [reflexivity|]. intro Hi. apply Hb. now right.
Qed.

(** [splitLines] cuts a text into lines and a rest with no newline. *)
Lemma splitLines_sound (t : bytes) :
  concat (fst (splitLines t)) ++ snd (splitLines t) = t /\
  Forall isLine (fst (splitLines t)) /\
  cutLine (snd (splitLines t)) = None.
Proof.
  induction t as [|c t (IH1 & IH2 & IH3)]; simpl.
  - repeat split. constructor.
  - destruct (splitLines t) as [ls tl]. simpl in *.
    destruct (Byte.eqb c newline) eqn:E; simpl.
    + rewrite IH1. repeat split; auto. constructor; [|exact IH2].
      unfold isLine. simpl. now rewrite E.
    + destruct ls as [|l ls]; simpl in *.
      * subst tl. split; [reflexivity|]. split; [constructor|].
        cbn [cutLine]. now rewrite E, IH3.
      * rewrite <- IH1. repeat split; auto.
        inversion IH2; subst. constructor; [|assumption].
        unfold isLine in *. simpl. rewrite E.
        match goal with H : cutLine l = _ |- _ => now rewrite H end.
Qed.

(** A text ends at a line boundary when it is empty or ends with a
    newline. *)
Lemma lineClosed_iff (a : bytes) :
  lineClosed a <-> a = [] \/ exists a', a = a' ++ [newline].
Proof.
  unfold lineClosed. split.
  - intro H. destruct (splitLines_sound a) as (H1 & H2 & _).
    rewrite H, app_nil_r in H1. rewrite <- H1.
    destruct (fst (splitLines a)) as [|l ls] using rev_ind; [now left|].
    right. apply Forall_app in H2 as [_ H2]. inversion H2; subst.
    match goal with H : isLine l |- _ =>
      apply isLine_iff in H as (body & -> & _) end.
    exists (concat ls ++ body). rewrite concat_app. simpl.
    now rewrite app_nil_r, app_assoc.
  - intros [->|[a' ->]]; [reflexivity|].
    assert (H : exists l ls, splitLines (a' ++ [newline]) = (l :: ls, [])).
    { induction a' as [|c a' (l & ls & IH)]; simpl.
      - now exists [newline], [].
      - rewrite IH. destruct (Byte.eqb c newline); eexists _, _; reflexivity. }
    destruct H as (l & ls & ->). reflexivity.
Qed.

Lemma linesOf_insert (a c b : bytes) :
  lineClosed a -> isLine c ->
  splitLines (a ++ c ++ b) = (linesOf a ++ c :: linesOf b, snd (splitLines b)).
Proof.
  intros Ha Hc. rewrite splitLines_app by assumption.
  assert (Hc' : lineClosed c) by (unfold lineClosed; now rewrite splitLines_line).
  unfold linesOf at 2. rewrite splitLines_app by assumption. unfold linesOf at 2.
  now rewrite splitLines_line by assumption.
Qed.

Lemma linesOf_drop_tail (a tl : bytes) :
  lineClosed a -> cutLine tl = None -> linesOf (a ++ tl) = linesOf a.
Proof.
  intros Ha Ht. unfold linesOf at 1. rewrite splitLines_app by assumption.
  unfold linesOf at 2. rewrite splitLines_tail by assumption. simpl.
  apply app_nil_r.
Qed.

Lemma progressing_single (text : bytes) (fin : error) (n : nat) :
  progressing (mkReader [text] fin n).
Proof. unfold progressing. cbn. now destruct text. Qed.

Section TrimFacts.
Context {L : GoLib}.

Lemma trimRight_last (r : bytes) (c : byte) :
  nonASCII c = false -> asciiSpace c = false -> trimRight (r ++ [c]) <> [].
Proof.
  intros Hn Hs. induction r as [|x r IH]; simpl.
  - rewrite Hn, Hs. discriminate.
  - destruct (nonASCII x).
    + rewrite rev_app_distr. simpl. now apply TrimFunc_IsSpace_head.
    + destruct (asciiSpace x); [exact IH|].
      rewrite rev_app_distr. discriminate.
Qed.

(** [TrimSpace] keeps an ASCII byte that is not white space at the head
    of its argument. *)
Lemma TrimSpace_head (c : byte) (s : bytes) :
  nonASCII c = false -> asciiSpace c = false -> TrimSpace (c :: s) <> [].
Proof.
  intros Hn Hs. cbn [TrimSpace]. rewrite Hn, Hs.
  cbn [rev]. now apply trimRight_last.
Qed.

Lemma HasPrefix_head (s : bytes) (p : byte) (prefix : bytes) :
  HasPrefix s (p :: prefix) = true -> exists s', s = p :: s'.
Proof.
  destruct s as [|c s]; simpl; [discriminate|].
  intro H. apply andb_true_iff in H as [H _]. apply byte_dec_bl in H.
  subst. now exists s.
Qed.

Lemma comment_not_blank (line : bytes) :
  HasPrefix line (bs ":") = true -> (length (TrimSpace line) =? 0) = false.
Proof.
  intro H. apply HasPrefix_head in H as [s ->].
  apply Nat.eqb_neq. intro E. apply length_zero_iff_nil in E.
  revert E. now apply TrimSpace_head.
Qed.

Lemma data_not_blank (line : bytes) :
  HasPrefix line (bs "data:") = true -> (length (TrimSpace line) =? 0) = false.
Proof.
  intro H. apply HasPrefix_head in H as [s ->].
  apply Nat.eqb_neq. intro E. apply length_zero_iff_nil in E.
  revert E. now apply TrimSpace_head.
Qed.

Lemma data_not_comment (line : bytes) :
  HasPrefix line (bs "data:") = true -> HasPrefix line (bs ":") = false.
Proof. intro H. apply HasPrefix_head in H as [s ->]. reflexivity. Qed.

Lemma comment_ignored (c : bytes) : commentLine c -> ignoredLine c = true.
Proof. intros [_ H]. unfold ignoredLine. now rewrite H. Qed.

Lemma bareData_ignored (c : bytes) : bareDataLine c -> ignoredLine c = true.
Proof.
  intros (_ & H1 & H2). unfold ignoredLine.
  rewrite data_not_blank by assumption. now rewrite H2, orb_true_r.
Qed.

Lemma frameLines_ignored (c : bytes) (ls : list bytes) (buf : bytes) :
  ignoredLine c = true -> frameLines buf (c :: ls) = frameLines buf ls.
Proof.
  unfold ignoredLine. intro H. cbn [frameLines].
  destruct (HasPrefix c (bs ":")); [reflexivity|].
  destruct (length (TrimSpace c) =? 0); [discriminate|].
  now destruct (HasPrefix c (bs "data: ")).
Qed.

Lemma frameLines_insert (c : bytes) (l1 l2 : list bytes) :
  ignoredLine c = true ->
  forall buf, frameLines buf (l1 ++ c :: l2) = frameLines buf (l1 ++ l2).
Proof.
  intro H. induction l1 as [|l l1 IH]; intro buf.
  - now apply frameLines_ignored.
  - cbn [app frameLines]. rewrite !IH. reflexivity.
Qed.

Lemma framesOf_insert (fin : error) (c : bytes) (l1 l2 : list bytes) :
  ignoredLine c = true ->
  framesOf fin (l1 ++ c :: l2) = framesOf fin (l1 ++ l2).
Proof. intro H. unfold framesOf. now rewrite frameLines_insert. Qed.

Lemma flushes_insert (fin : error) (c : bytes) (l1 l2 : list bytes) :
  ignoredLine c = true ->
  flushes fin (l1 ++ c :: l2) = flushes fin (l1 ++ l2).
Proof. intro H. unfold flushes. now rewrite frameLines_insert. Qed.

(** Inserting an ignored line at a line boundary keeps the payloads. *)
Lemma framesOf_insert_text (fin : error) (a c b : bytes) :
  lineClosed a -> isLine c -> ignoredLine c = true ->
  framesOf fin (linesOf (a ++ c ++ b)) = framesOf fin (linesOf (a ++ b)).
Proof.
  intros Ha Hc Hi. unfold linesOf.
  rewrite linesOf_insert, splitLines_app by assumption. cbn [fst].
  now apply framesOf_insert.
Qed.

Lemma payloadOf_snoc (since : list bytes) (line : bytes) :
  payloadOf (since ++ [line]) =
  if HasPrefix line (bs "data: ")
  then payloadOf since ++ TrimSpace (TrimPrefix line (bs "data: "))
  else payloadOf since.
Proof.
  unfold payloadOf. rewrite filter_app. cbn [filter].
  destruct (HasPrefix line (bs "data: ")).
  - rewrite map_app, concat_app. cbn. now rewrite app_nil_r.
  - now rewrite app_nil_r.
Qed.

(** The loop of [readEvent] frames the lines as the specification says. *)
Lemma frameLines_spec (ls : list bytes) :
  forall since,
    frameLines (payloadOf since) ls =
    let (evs, since') := specEvents since ls in (evs, payloadOf since').
Proof.
  induction ls as [|l ls IH]; intro since; [reflexivity|].
  cbn [frameLines specEvents]. unfold onlyWhitespace.
  destruct (HasPrefix l (bs ":")) eqn:E1.
  - rewrite comment_not_blank by assumption.
    rewrite <- IH, payloadOf_snoc.
    apply HasPrefix_head in E1 as [s ->]. reflexivity.
  - destruct (length (TrimSpace l) =? 0).
    + destruct (0 <? length (payloadOf since)); [|apply IH].
      change (@nil byte) with (payloadOf []). rewrite IH.
      now destruct (specEvents [] ls).
    + rewrite <- IH, payloadOf_snoc.
      now destruct (HasPrefix l (bs "data: ")).
Qed.

Lemma framesOf_spec (fin : error) (ls : list bytes) :
  framesOf fin ls = specPayloads fin ls.
Proof.
  unfold framesOf, specPayloads.
  change (@nil byte) with (payloadOf []). rewrite frameLines_spec.
  now destruct (specEvents [] ls).
Qed.
End TrimFacts.

(** ** The framer *)

Section Claims_Framer.
Context {L : GoLib}.

Lemma frameLines_nonempty (ls : list bytes) :
  forall buf, Forall (fun p => p <> []) (fst (frameLines buf ls)).
Proof.
  induction ls as [|l ls IH]; intro buf; cbn [frameLines]; [constructor|].
  destruct (HasPrefix l (bs ":")); [apply IH|].
  destruct (length (TrimSpace l) =? 0).
  - destruct (0 <? length buf) eqn:E; [|apply IH].
    specialize (IH []). destruct (frameLines [] ls) as [evs b'].
    constructor; [|exact IH]. intros ->. discriminate.
  - destruct (HasPrefix l (bs "data: ")); apply IH.
Qed.

Lemma framesOf_nonempty (fin : error) (ls : list bytes) :
  Forall (fun p => p <> []) (framesOf fin ls).
Proof.
  unfold framesOf. pose proof (frameLines_nonempty ls []) as H.
  destruct (frameLines [] ls) as [evs b']. simpl in H.
  destruct (error_eqb fin EOF && (0 <? length b')) eqn:E; [|exact H].
  apply Forall_app. split; [exact H|]. constructor; [|constructor].
  intros ->. apply andb_true_iff in E as [_ E]. discriminate.
Qed.

(** The results of [processStream] on two streams with the same payloads
    and the same final error. *)
Lemma processStream_same_events (r1 r2 : Reader) (options : Options)
      tr1 t1 tr2 t2 :
  events (newStreamReader r1) = Some (tr1, t1) ->
  events (newStreamReader r2) = Some (tr2, t2) ->
  map fst tr1 = map fst tr2 -> fst t1 = fst t2 ->
  option_map fst (processStream r1 options) =
  option_map fst (processStream r2 options).
Proof.
  intros E1 E2 H1 H2.
  rewrite (processStream_events r1 options E1).
  rewrite (processStream_events r2 options E2).
  cbn. now rewrite H1, H2.
Qed.

(** Two streams that make progress and carry texts with the same framed
    payloads have the same events. *)
Lemma events_same_frames (r1 r2 : Reader) :
  progressing r1 -> progressing r2 -> final r1 = final r2 ->
  framesOf (final r1) (linesOf (concat (chunks r1))) =
  framesOf (final r1) (linesOf (concat (chunks r2))) ->
  exists tr1 t1 tr2 t2,
    events (newStreamReader r1) = Some (tr1, t1) /\
    events (newStreamReader r2) = Some (tr2, t2) /\
    map fst tr1 = map fst tr2 /\ fst t1 = fst t2.
Proof.
  intros P1 P2 Hf Hfr.
  destruct (events_progressing P1) as (tr1 & t1 & E1 & H1 & H1' & _).
  destruct (events_progressing P2) as (tr2 & t2 & E2 & H2 & H2' & _).
  exists tr1, t1, tr2, t2. repeat split; auto; congruence.
Qed.

Lemma commentEdit_frames (t1 t2 : bytes) :
  commentEdit t1 t2 ->
  forall fin, framesOf fin (linesOf t1) = framesOf fin (linesOf t2).
Proof.
  induction 1 as [t | a c b Ha Hc | a c b Ha Hc | t1 t2 t3 _ IH1 _ IH2];
    intro fin.
  - reflexivity.
  - symmetry. apply framesOf_insert_text; [exact Ha | apply Hc |].
    now apply comment_ignored.
  - apply framesOf_insert_text; [exact Ha | apply Hc |].
    now apply comment_ignored.
  - now rewrite IH1, IH2.
Qed.

(** C3.  The same text delivered in any sequence of chunks in which the
    reads never deliver [maxConsecutiveEmptyReads] empty chunks in a row
    (in particular in any sequence of non-empty chunks) and delivered in
    one chunk gives the same sequence of payloads and the same final
    error. *)
Theorem C3_framing_independent_of_chunking
        (text : bytes) (cs : list bytes) (fin : error) (n1 n2 : nat) :
  concat cs = text ->
  steady cs maxConsecutiveEmptyReads = true ->
  exists tr1 t1 tr2 t2,
    events (newStreamReader (mkReader cs fin n1)) = Some (tr1, t1) /\
    events (newStreamReader (mkReader [text] fin n2)) = Some (tr2, t2) /\
    map fst tr1 = map fst tr2 /\ fst t1 = fst t2.
Proof.
  intros Hc Hs.
  apply events_same_frames; try reflexivity.
  - exact Hs.
  - apply progressing_single.
  - cbn [chunks final concat]. now rewrite app_nil_r, Hc.
Qed.

(** C4.  For every stream, with [ls] the lines read from it and [e] the
    error that ends them: the payloads [readEvent] returns are those of
    the specification, each the concatenation with no separator of the
    trimmed remainders of the data lines since the previous event
    boundary, a line of white space ending the event exactly when that
    payload is not empty; no payload is empty; and a line beginning with
    the data prefix is neither a line of white space nor a comment. *)
Theorem C4_payloads_follow_framing_rules
        (r : Reader) (ls : list bytes) (tl : bytes) (e : error)
        (rE : bufioReader) :
  Reads (NewReader r) ls tl e rE ->
  exists tr t,
    events (newStreamReader r) = Some (tr, t) /\
    map fst tr = specPayloads e ls /\
    Forall (fun p => p <> []) (map fst tr) /\
    (forall line, HasPrefix line (bs "data: ") = true ->
                  onlyWhitespace line = false /\
                  HasPrefix line (bs ":") = false).
Proof.
  intro HR.
  destruct (events_Reads (newStreamReader r) (le_n _) HR)
    as (tr & t & E & H1 & _).
  exists tr, t. split; [exact E|]. split; [now rewrite H1, framesOf_spec|].
  split; [rewrite H1; apply framesOf_nonempty|].
  intros line H. apply HasPrefix_head in H as [s ->]. split; [|reflexivity].
  apply Nat.eqb_neq. intro E0. apply length_zero_iff_nil in E0.
  revert E0. now apply TrimSpace_head.
Qed.

(** C5.  When [ReadBytes] reports the end of input, [readEvent] returns
    the buffer as a last event when it is not empty and [EOF] with no
    data otherwise; the call after it reports [EOF]; and [processStream]
    on a stream with no bytes returns the empty string and no error. *)
Theorem C5_end_of_input
        (fuel : nat) (r : bufioReader) (buf line : bytes) (r' : bufioReader)
        (r0 : Reader) (options : Options) :
  ReadBytes r = ((line, Some EOF), r') ->
  progressing r0 -> concat (chunks r0) = [] -> final r0 = EOF ->
  readEvent_loop (S fuel) r buf =
    Some ((if 0 <? length buf then (buf, None) else ([], Some EOF)),
          mkStreamReader r' buf) /\
  (exists s'', readEvent (mkStreamReader r' buf) = Some (([], Some EOF), s'')) /\
  (exists s0, processStream r0 options = Some ((EmptyString, None), s0)).
Proof.
  intros ER P0 H0 F0. split; [|split].
  - cbn [readEvent_loop]. rewrite ER. cbn [error_eqb andb].
    now destruct (0 <? length buf).
  - apply ReadBytes_loop_error in ER as [ER|[Hf [k ->]]]; [discriminate|].
    rewrite <- Hf. eexists. unfold readEvent. cbn. reflexivity.
  - destruct (events_progressing P0) as (tr & t & E & H1 & H2 & _).
    rewrite H0, F0 in H1. cbn in H1. apply map_eq_nil in H1. subst tr.
    exists (snd t). rewrite (processStream_events r0 options E).
    cbn. now rewrite H2, F0.
Qed.

(** C6.  Two streams that make progress, end with the same error and
    carry texts that differ by inserting or deleting lines beginning with
    a colon at line boundaries give the same sequence of payloads. *)
Theorem C6_comment_lines_invisible (r1 r2 : Reader) :
  progressing r1 -> progressing r2 -> final r1 = final r2 ->
  commentEdit (concat (chunks r1)) (concat (chunks r2)) ->
  exists tr1 t1 tr2 t2,
    events (newStreamReader r1) = Some (tr1, t1) /\
    events (newStreamReader r2) = Some (tr2, t2) /\
    map fst tr1 = map fst tr2 /\ fst t1 = fst t2.
Proof.
  intros P1 P2 Hf Hce. apply events_same_frames; auto.
  now apply commentEdit_frames.
Qed.

(** C9.  A stream whose text ends with bytes [tl] after its last newline
    gives the same payloads, the same final error and the same result of
    [processStream] as the stream without [tl], whatever [tl] is. *)
Theorem C9_unterminated_last_line_discarded
        (r1 r2 : Reader) (a tl : bytes) (options : Options) :
  progressing r1 -> progressing r2 -> final r1 = final r2 ->
  lineClosed a -> cutLine tl = None ->
  concat (chunks r1) = a ++ tl -> concat (chunks r2) = a ->
  exists tr1 t1 tr2 t2,
    events (newStreamReader r1) = Some (tr1, t1) /\
    events (newStreamReader r2) = Some (tr2, t2) /\
    map fst tr1 = map fst tr2 /\ fst t1 = fst t2 /\
    option_map fst (processStream r1 options) =
    option_map fst (processStream r2 options).
Proof.
  intros P1 P2 Hf Ha Ht H1 H2.
  destruct (@events_same_frames r1 r2 P1 P2 Hf)
    as (tr1 & t1 & tr2 & t2 & E1 & E2 & Hp & He).
  { rewrite H1, H2. now rewrite linesOf_drop_tail. }
  exists tr1, t1, tr2, t2. repeat split; auto.
  now apply (processStream_same_events r1 r2 options E1 E2).
Qed.

(** C10.  The data prefix is the six bytes [d a t a : space]; inserting
    at a line boundary a line that begins with [data:] without the space
    leaves the sequence of payloads unchanged. *)
Theorem C10_data_without_space_ignored (r1 r2 : Reader) (a c b : bytes) :
  progressing r1 -> progressing r2 -> final r1 = final r2 ->
  lineClosed a -> bareDataLine c ->
  concat (chunks r1) = a ++ b -> concat (chunks r2) = a ++ c ++ b ->
  bs "data: " = [x64; x61; x74; x61; x3a; x20] /\
  exists tr1 t1 tr2 t2,
    events (newStreamReader r1) = Some (tr1, t1) /\
    events (newStreamReader r2) = Some (tr2, t2) /\
    map fst tr1 = map fst tr2 /\ fst t1 = fst t2.
Proof.
  intros P1 P2 Hf Ha Hc H1 H2. split; [reflexivity|].
  apply events_same_frames; auto. rewrite H1, H2. symmetry.
  apply framesOf_insert_text; [exact Ha | apply Hc |].
  now apply bareData_ignored.
Qed.
End Claims_Framer.

(** ** More on the framer *)

Lemma asciiSpace_ascii (c : byte) : asciiSpace c = true -> nonASCII c = false.
Proof. destruct c; simpl; intro H; try discriminate H; reflexivity. Qed.

Lemma linesOf_lines (ls : list bytes) :
  Forall isLine ls -> splitLines (concat ls) = (ls, []).
Proof.
  induction 1 as [|l ls Hl _ IH]; [reflexivity|].
  cbn [concat]. rewrite splitLines_app.
  - unfold linesOf. rewrite splitLines_line, IH by assumption. reflexivity.
  - unfold lineClosed. now rewrite splitLines_line.
Qed.

Lemma lineClosed_app (a c : bytes) :
  lineClosed a -> lineClosed c -> lineClosed (a ++ c).
Proof.
  intros Ha Hc. unfold lineClosed. now rewrite splitLines_app.
Qed.

Lemma isLine_closed (c : bytes) : isLine c -> lineClosed c.
Proof. intro H. unfold lineClosed. now rewrite splitLines_line. Qed.

Lemma linesOf_app (a b : bytes) :
  lineClosed a -> linesOf (a ++ b) = linesOf a ++ linesOf b.
Proof. intro H. unfold linesOf at 1. now rewrite splitLines_app. Qed.

Lemma linesOf_line (c : bytes) : isLine c -> linesOf c = [c].
Proof. intro H. unfold linesOf. now rewrite splitLines_line. Qed.

Section FramerFacts.
Context {L : GoLib}.

Lemma TrimSpace_spaces (w : bytes) :
  Forall (fun c => asciiSpace c = true) w -> TrimSpace w = [].
Proof.
  induction 1 as [|c w Hc _ IH]; [reflexivity|].
  cbn [TrimSpace]. now rewrite (asciiSpace_ascii _ Hc), Hc.
Qed.

Lemma frameLines_classify (line : bytes) (ls : list bytes) (buf : bytes) :
  frameLines buf (line :: ls) =
  match classify line with
  | KComment | KOther => frameLines buf ls
  | KBlank => if 0 <? length buf
              then let (evs, b') := frameLines [] ls in (buf :: evs, b')
              else frameLines buf ls
  | KData data => frameLines (buf ++ data) ls
  end.
Proof.
  cbn [frameLines]. unfold classify.
  destruct (HasPrefix line (bs ":")); [reflexivity|].
  destruct (length (TrimSpace line) =? 0); [reflexivity|].
  now destruct (HasPrefix line (bs "data: ")).
Qed.

Lemma classify_blank (w : bytes) : blankLine w -> classify w = KBlank.
Proof.
  intros [Hl Hw]. unfold classify. rewrite (TrimSpace_spaces Hw). cbn [length Nat.eqb].
  destruct w as [|h w]; [discriminate Hl|].
  inversion Hw; subst. cbn [HasPrefix bs list_byte_of_string].
  destruct h; try discriminate; reflexivity.
Qed.

Lemma classify_field (c : bytes) : fieldLine c -> classify c = KOther.
Proof.
  intros (Hl & (h & rest & -> & Hn & Hs & Hc) & Hd). unfold classify.
  rewrite Hd.
  assert (E : HasPrefix (h :: rest) (bs ":") = false).
  { cbn. destruct (Byte.eqb h ":") eqn:E; [|reflexivity].
    apply byte_dec_bl in E. contradiction. }
  rewrite E.
  destruct (length (TrimSpace (h :: rest)) =? 0) eqn:E2; [|reflexivity].
  apply Nat.eqb_eq, length_zero_iff_nil in E2.
  now apply TrimSpace_head in E2.
Qed.

Lemma data_head (c : bytes) :
  HasPrefix c (bs "data: ") = true -> exists s, c = x64 :: s.
Proof. intro H. apply HasPrefix_head in H as [s ->]. now exists s. Qed.

Lemma classify_emptyData (c : bytes) : emptyDataLine c -> classify c = KData [].
Proof.
  intros (Hl & Hd & Hs). unfold classify, TrimPrefix. rewrite Hd.
  change (length (bs "data: ")) with 6. rewrite (TrimSpace_spaces Hs).
  destruct (data_head _ Hd) as [s ->].
  change (HasPrefix (x64 :: s) (bs ":")) with false. cbn iota.
  destruct (length (TrimSpace (x64 :: s)) =? 0) eqn:E2; [|reflexivity].
  apply Nat.eqb_eq, length_zero_iff_nil in E2.
  now apply TrimSpace_head in E2.
Qed.

(** A line after which the loop goes on with the buffer unchanged. *)
Lemma frameLines_skip_field (c : bytes) (ls : list bytes) (buf : bytes) :
  fieldLine c -> frameLines buf (c :: ls) = frameLines buf ls.
Proof. intro H. now rewrite frameLines_classify, (classify_field H). Qed.

Lemma frameLines_skip_emptyData (c : bytes) (ls : list bytes) (buf : bytes) :
  emptyDataLine c -> frameLines buf (c :: ls) = frameLines buf ls.
Proof.
  intro H. now rewrite frameLines_classify, (classify_emptyData H), app_nil_r.
Qed.

Lemma frameLines_app (l1 l2 : list bytes) :
  forall buf,
    frameLines buf (l1 ++ l2) =
    let (e1, b1) := frameLines buf l1 in
    let (e2, b2) := frameLines b1 l2 in (e1 ++ e2, b2).
Proof.
  induction l1 as [|l l1 IH]; intro buf.
  - cbn [app frameLines]. now destruct (frameLines buf l2).
  - rewrite <- app_comm_cons, !frameLines_classify.
    destruct (classify l); try apply IH.
    destruct (0 <? length buf); [|apply IH].
    rewrite IH. destruct (frameLines [] l1) as [e1 b1].
    now destruct (frameLines b1 l2).
Qed.

Lemma frameLines_skip_insert (c : bytes) (l1 l2 : list bytes) :
  (forall buf ls, frameLines buf (c :: ls) = frameLines buf ls) ->
  forall buf, frameLines buf (l1 ++ c :: l2) = frameLines buf (l1 ++ l2).
Proof.
  intros H buf. rewrite !frameLines_app.
  destruct (frameLines buf l1) as [e1 b1]. now rewrite H.
Qed.

Lemma framesOf_skip_insert_text (fin : error) (a c b : bytes) :
  lineClosed a -> isLine c ->
  (forall buf ls, frameLines buf (c :: ls) = frameLines buf ls) ->
  framesOf fin (linesOf (a ++ c ++ b)) = framesOf fin (linesOf (a ++ b)).
Proof.
  intros Ha Hc H. unfold linesOf.
  rewrite linesOf_insert, splitLines_app by assumption. cbn [fst].
  unfold framesOf. now rewrite frameLines_skip_insert.
Qed.

Lemma empty_buffer (b : bytes) : (0 <? length b) = false -> b = [].
Proof. destruct b; [reflexivity | discriminate]. Qed.

(** After a blank line the buffer is empty. *)
Lemma frameLines_after_blank (la : list bytes) (w : bytes) (buf : bytes) :
  blankLine w -> snd (frameLines buf (la ++ [w])) = [].
Proof.
  intro Hw. rewrite frameLines_app.
  destruct (frameLines buf la) as [e1 b1].
  rewrite frameLines_classify, (classify_blank Hw). cbn [frameLines].
  destruct (0 <? length b1) eqn:E; [reflexivity|].
  cbn. now apply empty_buffer.
Qed.

(** A blank line read with an empty buffer changes nothing. *)
Lemma frameLines_blank_at_boundary (l1 l2 : list bytes) (w : bytes) (buf : bytes) :
  blankLine w -> snd (frameLines buf l1) = [] ->
  frameLines buf (l1 ++ w :: l2) = frameLines buf (l1 ++ l2).
Proof.
  intros Hw Hb. rewrite !frameLines_app.
  destruct (frameLines buf l1) as [e1 b1]. cbn in Hb. subst b1.
  now rewrite frameLines_classify, (classify_blank Hw).
Qed.

Lemma framesOf_trailing_blank (ls : list bytes) (w : bytes) :
  blankLine w -> framesOf EOF (ls ++ [w]) = framesOf EOF ls.
Proof.
  intro Hw. unfold framesOf. rewrite frameLines_app.
  destruct (frameLines [] ls) as [e1 b1].
  rewrite frameLines_classify, (classify_blank Hw). cbn [frameLines error_eqb andb].
  destruct (0 <? length b1) eqn:E.
  - cbn [length Nat.ltb Nat.leb]. reflexivity.
  - rewrite E. now rewrite app_nil_r.
Qed.

Lemma frameLines_no_data (ls : list bytes) :
  Forall (fun l => HasPrefix l (bs "data: ") = false) ls ->
  frameLines [] ls = ([], []).
Proof.
  induction 1 as [|l ls Hl _ IH]; [reflexivity|].
  rewrite frameLines_classify. unfold classify. rewrite Hl.
  destruct (HasPrefix l (bs ":")); [exact IH|].
  destruct (length (TrimSpace l) =? 0); exact IH.
Qed.

(** The payloads of a text that ends at an event boundary, followed by
    another text. *)
Lemma framesOf_app_boundary (fin : error) (l1 l2 : list bytes) :
  snd (frameLines [] l1) = [] ->
  framesOf fin (l1 ++ l2) = framesOf EOF l1 ++ framesOf fin l2.
Proof.
  intro Hb. unfold framesOf. rewrite frameLines_app.
  destruct (frameLines [] l1) as [e1 b1]. cbn [snd] in Hb. subst b1.
  destruct (frameLines [] l2) as [e2 b2].
  change (0 <? @length byte []) with false. rewrite andb_false_r.
  destruct (error_eqb fin EOF && (0 <? length b2)); [|reflexivity].
  now rewrite app_assoc.
Qed.

(** A result with no error comes from well-formed payloads and a clean
    end. *)
Lemma aggregate_no_error (ps : list bytes) :
  forall result e s,
    aggregate result ps e = (s, None) ->
    e = EOF /\ Forall (fun p => malformed p = false) ps /\
    s = String.append result (join (flat_map fragmentsOf ps)).
Proof.
  induction ps as [|p ps IH]; intros result e s H.
  - cbn in H. destruct (error_eqb e EOF) eqn:E; [|discriminate].
    apply error_eqb_eq in E. inversion H; subst.
    repeat split; [constructor | now rewrite append_nil_r].
  - destruct (malformed p) eqn:Em.
    + rewrite aggregate_malformed in H by assumption. discriminate.
    + rewrite aggregate_cons in H by assumption.
      apply IH in H as (He & Hw & ->). repeat split; auto.
      cbn [flat_map]. now rewrite join_app, append_assoc.
Qed.
End FramerFacts.

Lemma crlf_line (body : bytes) : crlf (body ++ [newline]) = body ++ [x0d; x0a].
Proof. unfold crlf. now rewrite removelast_last. Qed.

Lemma isLine_crlf (l : bytes) : isLine l -> isLine (crlf l).
Proof.
  intro H. apply isLine_iff in H as (body & -> & Hb). rewrite crlf_line.
  apply isLine_iff. exists (body ++ [x0d]). split.
  - now rewrite <- app_assoc.
  - intro Hi. apply in_app_or in Hi as [Hi|[Hi|[]]]; [contradiction | discriminate].
Qed.

Lemma skipn_length_app (A : Type) (p r : list A) : skipn (length p) (p ++ r) = r.
Proof. induction p as [|x p IH]; [reflexivity | exact IH]. Qed.

Lemma HasPrefix_refl_app (p r : bytes) : HasPrefix (p ++ r) p = true.
Proof.
  induction p as [|x p IH]; [now destruct r|].
  cbn [HasPrefix app]. now rewrite byte_dec_lb, IH.
Qed.

(** A prefix with no newline that matches a line lies within its body. *)
Lemma HasPrefix_body (p : bytes) :
  forall body, HasPrefix (body ++ [newline]) p = true -> ~ In newline p ->
               exists body', body = p ++ body'.
Proof.
  induction p as [|x p IH]; intros body H Hn; [now exists body|].
  destruct body as [|c body]; cbn [HasPrefix app] in H;
    apply andb_true_iff in H as [H1 H2].
  - apply byte_dec_bl in H1. exfalso. apply Hn. now left.
  - apply byte_dec_bl in H1. subst c.
    destruct (IH body H2) as [body' ->]; [|now exists body'].
    intro Hi. apply Hn. now right.
Qed.

Lemma HasPrefix_crlf (p : bytes) :
  Forall (fun x => x <> x0d /\ x <> x0a) p ->
  forall body, HasPrefix (body ++ [x0d; x0a]) p = HasPrefix (body ++ [x0a]) p.
Proof.
  induction 1 as [|x p [H1 H2] _ IH]; intro body; [now destruct body|].
  destruct body as [|c body]; cbn [HasPrefix app].
  - assert (E1 : Byte.eqb x0d x = false) by (apply byte_eqb_false; congruence).
    assert (E2 : Byte.eqb x0a x = false) by (apply byte_eqb_false; congruence).
    now rewrite E1, E2.
  - now rewrite IH.
Qed.

Section CRLF.
Context {L : GoLib}.

Lemma TrimSpace_crlf (body : bytes) :
  asciiText body ->
  TrimSpace (body ++ [x0d; x0a]) = TrimSpace (body ++ [x0a]).
Proof.
  induction 1 as [|c body Hc _ IH]; [reflexivity|].
  cbn [app TrimSpace]. rewrite Hc.
  destruct (asciiSpace c); [exact IH|].
  cbn [rev]. now rewrite !rev_app_distr.
Qed.

Lemma classify_crlf (body : bytes) :
  asciiText body ->
  classify (body ++ [x0d; x0a]) = classify (body ++ [x0a]).
Proof.
  intro Ha. unfold classify.
  rewrite (@HasPrefix_crlf (bs ":")), (@HasPrefix_crlf (bs "data: ")),
    (TrimSpace_crlf Ha);
    try (repeat constructor; discriminate).
  destruct (HasPrefix (body ++ [x0a]) (bs ":")); [reflexivity|].
  destruct (length (TrimSpace (body ++ [x0a])) =? 0); [reflexivity|].
  destruct (HasPrefix (body ++ [x0a]) (bs "data: ")) eqn:Hd; [|reflexivity].
  apply HasPrefix_body in Hd as [body' ->].
  - unfold TrimPrefix. rewrite <- !app_assoc, !HasPrefix_refl_app.
    rewrite !skipn_length_app. f_equal. apply TrimSpace_crlf.
    unfold asciiText in *. now apply Forall_app in Ha as [_ Ha].
  - cbn. intros [H|[H|[H|[H|[H|[H|[]]]]]]]; discriminate.
Qed.

Lemma frameLines_crlf (ls : list bytes) :
  Forall isLine ls -> asciiText (concat ls) ->
  forall buf, frameLines buf (map crlf ls) = frameLines buf ls.
Proof.
  induction 1 as [|l ls Hl _ IH]; intros Ha buf; [reflexivity|].
  cbn [concat] in Ha. unfold asciiText in Ha. apply Forall_app in Ha as [Ha1 Ha2].
  cbn [map]. rewrite !frameLines_classify.
  apply isLine_iff in Hl as (body & -> & _). rewrite crlf_line.
  apply Forall_app in Ha1 as [Ha1 _].
  rewrite (classify_crlf Ha1). fold newline.
  destruct (classify (body ++ [newline])); try apply (IH Ha2).
  now rewrite !(IH Ha2).
Qed.
End CRLF.

Section Extras_Framer.
Context {L : GoLib}.

(** X1.  A field line (one beginning with an ASCII byte that is neither
    white space nor the colon, and not with the data prefix: [event:],
    [id:], [retry:] and the like) can be inserted or deleted at any line
    boundary without changing the payloads or the final error. *)
Theorem X1_unused_fields_ignored (r1 r2 : Reader) (a c b : bytes) :
  progressing r1 -> progressing r2 -> final r1 = final r2 ->
  lineClosed a -> fieldLine c ->
  concat (chunks r1) = a ++ b -> concat (chunks r2) = a ++ c ++ b ->
  exists tr1 t1 tr2 t2,
    events (newStreamReader r1) = Some (tr1, t1) /\
    events (newStreamReader r2) = Some (tr2, t2) /\
    map fst tr1 = map fst tr2 /\ fst t1 = fst t2.
Proof.
  intros P1 P2 Hf Ha Hc H1 H2.
  apply events_same_frames; auto. rewrite H1, H2. symmetry.
  apply framesOf_skip_insert_text; [exact Ha | apply Hc |].
  intros buf ls. now apply frameLines_skip_field.
Qed.

(** X2.  One more blank line at the start of the stream or right after a
    blank line changes neither the payloads nor the final error. *)
Theorem X2_stray_blank_lines (r1 r2 : Reader) (a w b : bytes) :
  progressing r1 -> progressing r2 -> final r1 = final r2 ->
  (a = [] \/ exists a0 w0, a = a0 ++ w0 /\ lineClosed a0 /\ blankLine w0) ->
  blankLine w ->
  concat (chunks r1) = a ++ b -> concat (chunks r2) = a ++ w ++ b ->
  exists tr1 t1 tr2 t2,
    events (newStreamReader r1) = Some (tr1, t1) /\
    events (newStreamReader r2) = Some (tr2, t2) /\
    map fst tr1 = map fst tr2 /\ fst t1 = fst t2.
Proof.
  intros P1 P2 Hf Ha Hw H1 H2.
  apply events_same_frames; auto. rewrite H1, H2.
  assert (Hc : lineClosed a /\ snd (frameLines [] (linesOf a)) = []).
  { destruct Ha as [->|(a0 & w0 & -> & Ha0 & Hw0)]; [split; reflexivity|].
    split; [apply lineClosed_app; [exact Ha0 | apply isLine_closed, Hw0]|].
    rewrite linesOf_app, (linesOf_line (proj1 Hw0)) by assumption.
    now apply frameLines_after_blank. }
  destruct Hc as [Hc Hb]. unfold linesOf at 1 2.
  rewrite linesOf_insert, splitLines_app; try assumption; [|apply Hw].
  cbn [fst]. unfold framesOf. now rewrite frameLines_blank_at_boundary.
Qed.

(** X3.  When the reads end with a clean end of input, the blank line
    after the last event is optional: the stream with and without it give
    the same payloads and the same result of [processStream]. *)
Theorem X3_trailing_blank_line_optional
        (r1 r2 : Reader) (a w : bytes) (options : Options) :
  progressing r1 -> progressing r2 -> final r1 = EOF -> final r2 = EOF ->
  lineClosed a -> blankLine w ->
  concat (chunks r1) = a -> concat (chunks r2) = a ++ w ->
  exists tr1 t1 tr2 t2,
    events (newStreamReader r1) = Some (tr1, t1) /\
    events (newStreamReader r2) = Some (tr2, t2) /\
    map fst tr1 = map fst tr2 /\
    option_map fst (processStream r1 options) =
    option_map fst (processStream r2 options).
Proof.
  intros P1 P2 F1 F2 Ha Hw H1 H2.
  destruct (@events_same_frames _ r1 r2 P1 P2 (eq_trans F1 (eq_sym F2)))
    as (tr1 & t1 & tr2 & t2 & E1 & E2 & Hp & He).
  { rewrite H1, H2, F1, linesOf_app, (linesOf_line (proj1 Hw)) by assumption.
    symmetry. now apply framesOf_trailing_blank. }
  exists tr1, t1, tr2, t2. repeat split; auto.
  now apply (processStream_same_events r1 r2 options E1 E2).
Qed.

(** X4.  A stream with no data line at all (comments, blank lines and
    other fields only) gives no payload: [processStream] returns the empty
    string, with no error at a clean end of input and with the read error
    otherwise. *)
Theorem X4_no_data_no_events (r : Reader) (options : Options) :
  progressing r ->
  Forall (fun l => HasPrefix l (bs "data: ") = false)
         (linesOf (concat (chunks r))) ->
  exists t,
    events (newStreamReader r) = Some ([], t) /\
    option_map fst (processStream r options) =
    Some (EmptyString, if error_eqb (final r) EOF then None else Some (final r)).
Proof.
  intros P H.
  destruct (events_progressing P) as (tr & t & E & H1 & H2 & _).
  unfold framesOf in H1. rewrite (frameLines_no_data H) in H1.
  rewrite andb_false_r in H1. apply map_eq_nil in H1. subst tr.
  exists t. split; [exact E|].
  rewrite (processStream_events r options E). cbn. rewrite H2.
  now destruct (error_eqb (final r) EOF).
Qed.

(** X5.  A data line with only white space after the prefix adds nothing
    to the buffer: it can be inserted or deleted at any line boundary
    without changing the payloads or the final error. *)
Theorem X5_empty_data_lines_ignored (r1 r2 : Reader) (a c b : bytes) :
  progressing r1 -> progressing r2 -> final r1 = final r2 ->
  lineClosed a -> emptyDataLine c ->
  concat (chunks r1) = a ++ b -> concat (chunks r2) = a ++ c ++ b ->
  exists tr1 t1 tr2 t2,
    events (newStreamReader r1) = Some (tr1, t1) /\
    events (newStreamReader r2) = Some (tr2, t2) /\
    map fst tr1 = map fst tr2 /\ fst t1 = fst t2.
Proof.
  intros P1 P2 Hf Ha Hc H1 H2.
  apply events_same_frames; auto. rewrite H1, H2. symmetry.
  apply framesOf_skip_insert_text; [exact Ha | apply Hc |].
  intros buf ls. now apply frameLines_skip_emptyData.
Qed.

(** X6.  Streams compose at event boundaries: when the first text ends
    with a blank line, the payloads of the two texts delivered one after
    the other are the payloads of the first followed by those of the
    second, and when [processStream] succeeds on each it returns on the
    whole the two results appended. *)
Theorem X6_streams_compose_at_event_boundaries
        (r1 r2 r12 : Reader) (a w : bytes) (options : Options) (s1 s2 : string) :
  progressing r1 -> progressing r2 -> progressing r12 ->
  final r1 = EOF -> final r12 = final r2 ->
  lineClosed a -> blankLine w ->
  concat (chunks r1) = a ++ w ->
  concat (chunks r12) = (a ++ w) ++ concat (chunks r2) ->
  exists tr1 t1 tr2 t2 tr12 t12,
    events (newStreamReader r1) = Some (tr1, t1) /\
    events (newStreamReader r2) = Some (tr2, t2) /\
    events (newStreamReader r12) = Some (tr12, t12) /\
    map fst tr12 = map fst tr1 ++ map fst tr2 /\
    fst t12 = fst t2 /\
    (option_map fst (processStream r1 options) = Some (s1, None) ->
     option_map fst (processStream r2 options) = Some (s2, None) ->
     option_map fst (processStream r12 options) =
     Some (String.append s1 s2, None)).
Proof.
  intros P1 P2 P12 F1 F12 Ha Hw H1 H12.
  destruct (events_progressing P1) as (tr1 & t1 & E1 & A1 & B1 & _).
  destruct (events_progressing P2) as (tr2 & t2 & E2 & A2 & B2 & _).
  destruct (events_progressing P12) as (tr12 & t12 & E12 & A12 & B12 & _).
  exists tr1, t1, tr2, t2, tr12, t12.
  assert (Hcl : lineClosed (a ++ w))
    by (apply lineClosed_app; [exact Ha | apply isLine_closed, Hw]).
  assert (Hp : map fst tr12 = map fst tr1 ++ map fst tr2).
  { rewrite A1, A2, A12, H1, H12, F1, F12, (linesOf_app _ Hcl).
    apply framesOf_app_boundary.
    rewrite linesOf_app, (linesOf_line (proj1 Hw)) by assumption.
    now apply frameLines_after_blank. }
  repeat split; auto; [congruence|].
  rewrite (processStream_events r1 options E1),
    (processStream_events r2 options E2),
    (processStream_events r12 options E12). cbn [option_map fst].
  intros R1 R2. inversion R1 as [R1']. inversion R2 as [R2'].
  apply aggregate_no_error in R1' as (_ & W1 & ->).
  apply aggregate_no_error in R2' as (Ee & W2 & ->).
  rewrite Hp, aggregate_wellformed by (apply Forall_app; auto).
  rewrite B12, F12, <- B2, Ee. cbn [error_eqb].
  now rewrite flat_map_app, join_app.
Qed.

(** X7.  For a text of ASCII bytes made of whole lines, ending every line
    with carriage return and newline instead of a newline alone changes
    neither the payloads nor the final error. *)
Theorem X7_crlf_line_endings (r1 r2 : Reader) (ls : list bytes) :
  progressing r1 -> progressing r2 -> final r1 = final r2 ->
  Forall isLine ls -> asciiText (concat ls) ->
  concat (chunks r1) = concat ls ->
  concat (chunks r2) = concat (map crlf ls) ->
  exists tr1 t1 tr2 t2,
    events (newStreamReader r1) = Some (tr1, t1) /\
    events (newStreamReader r2) = Some (tr2, t2) /\
    map fst tr1 = map fst tr2 /\ fst t1 = fst t2.
Proof.
  intros P1 P2 Hf Hl Ha H1 H2.
  apply events_same_frames; auto. rewrite H1, H2. unfold linesOf.
  rewrite !linesOf_lines; auto.
  - cbn [fst]. unfold framesOf. now rewrite frameLines_crlf.
  - apply Forall_map. eapply Forall_impl; [|exact Hl].
    intros l. apply isLine_crlf.
Qed.
End Extras_Framer.

(** ** The client *)

Lemma Read_text (cap : nat) (r : Reader) :
  fst (fst (Read cap r)) ++ concat (chunks (snd (Read cap r))) = concat (chunks r).
Proof.
  unfold Read. destruct (chunks r) as [|c cs]; [reflexivity|].
  cbn [fst snd chunks concat].
  rewrite <- (firstn_skipn cap c) at 3.
  destruct (skipn cap c) as [|x rest]; [now rewrite app_nil_r|].
  cbn [concat]. now rewrite app_assoc.
Qed.

Lemma MultiReader_text (head : bytes) (r : Reader) :
  concat (chunks (MultiReader head r)) = head ++ concat (chunks r).
Proof. unfold MultiReader. now destruct head. Qed.

Lemma Read_progressing (cap : nat) (r : Reader) :
  progressing r -> progressing (MultiReader (fst (fst (Read cap r))) (snd (Read cap r))).
Proof.
  unfold progressing, Read, MultiReader. intro H.
  destruct (chunks r) as [|c cs]; [reflexivity|].
  cbn [fst snd chunks].
  destruct c as [|x c].
  - rewrite firstn_nil, skipn_nil.
    apply (steady_mono cs (i := 99)); [exact H | unfold maxConsecutiveEmptyReads; lia].
  - change (steady cs maxConsecutiveEmptyReads = true) in H.
    destruct cap as [|cap].
    + cbn [firstn skipn chunks]. exact H.
    + cbn [firstn]. destruct (skipn (S cap) (x :: c)) as [|y rest]; exact H.
Qed.

Section ClientFacts.
Context {L : GoLib}.

(** Reading the start of the body for the diagnostics does not change
    what [processStream] returns. *)
Lemma processStream_streamBody (options : Client.Options) (r : Reader)
      (o1 o2 : Options) :
  progressing r ->
  option_map fst (processStream (Client.streamBody options r) o1) =
  option_map fst (processStream r o2).
Proof.
  intro P. unfold Client.streamBody.
  destruct (Client.Debug options); [|reflexivity].
  pose proof (Read_text 1024 r) as Ht.
  pose proof (Read_progressing 1024 P) as P'.
  destruct (Read 1024 r) as [[head e] rest] eqn:ER. cbn [fst snd] in *.
  assert (Hf : final (MultiReader head rest) = final r).
  { unfold Read in ER. destruct (chunks r); inversion ER; reflexivity. }
  destruct (@events_same_frames _ (MultiReader head rest) r P' P Hf)
    as (tr1 & t1 & tr2 & t2 & E1 & E2 & Hp & He).
  { now rewrite MultiReader_text, Ht. }
  apply (processStream_same_events _ _ o1 E1) in E2; auto.
Qed.

Lemma packageOption_keeps (o : Client.Options) (opt : Client.Option) :
  Client.wellConfigured o -> Client.packageOption opt ->
  Client.wellConfigured (opt o).
Proof.
  intros (H1 & H2 & H3 & H4 & H5) Hp. unfold Client.wellConfigured.
  destruct Hp; cbn.
  - unfold Client.WithTemperature.
    destruct (temp <? Client.minTemperature)%float eqn:E1;
      destruct (Client.maxTemperature <? temp)%float eqn:E2; cbn; auto.
  - unfold Client.WithTimeout. destruct (0 <? timeout)%Z eqn:E; cbn; auto.
    apply Z.ltb_lt in E. auto.
  - unfold Client.WithRetry.
    destruct (0 <? maxRetries)%Z eqn:E1; destruct (0 <? retryDelay)%Z eqn:E2;
      cbn; auto.
    apply Z.ltb_lt in E1, E2. repeat split; auto.
  - repeat split; auto.
  - repeat split; auto.
  - repeat split; auto.
  - repeat split; auto.
  - unfold Client.WithBaseURL. destruct (String.eqb url EmptyString) eqn:E; cbn; auto.
    apply String.eqb_neq in E. auto.
Qed.

Lemma attempts_bound (W : Client.World) (options : Client.Options) (n : nat) :
  forall a last res k,
    Client.attempts W options n a last = Some (res, k) -> a <= k <= a + n.
Proof.
  induction n as [|n IH]; intros a last res k H; cbn [Client.attempts] in H.
  - inversion H; subst. lia.
  - destruct (Client.client_Do W a) as [e|resp].
    + apply IH in H. lia.
    + destruct (negb (Client.StatusCode resp =? Client.StatusOK)%Z).
      * destruct (ReadAll (Client.Body resp)) as [x dr].
        destruct (negb (Client.shouldRetry (Client.StatusCode resp))).
        -- inversion H; subst. lia.
        -- apply IH in H. lia.
      * destruct (Client.Stream options).
        -- destruct (processStream _ _) as [[[text e] s']|]; [|discriminate].
           inversion H; subst. lia.
        -- destruct (Client.json_Decode W (Client.Body resp)) as [apiResp|e].
           ++ destruct (Client.Choices apiResp); inversion H; subst; lia.
           ++ apply IH in H. lia.
Qed.

Lemma attempts_total (W : Client.World) (options : Client.Options) (n : nat) :
  forall a last, exists res k, Client.attempts W options n a last = Some (res, k).
Proof.
  induction n as [|n IH]; intros a last; cbn [Client.attempts].
  - eexists _, _. reflexivity.
  - destruct (Client.client_Do W a) as [e|resp]; [apply IH|].
    destruct (negb (Client.StatusCode resp =? Client.StatusOK)%Z).
    + destruct (ReadAll (Client.Body resp)) as [x dr].
      destruct (negb (Client.shouldRetry (Client.StatusCode resp)));
        [eexists _, _; reflexivity | apply IH].
    + destruct (Client.Stream options).
      * destruct (processStream_total (Client.streamBody options (Client.Body resp))
                    (streamOptions (Client.Debug options)))
          as ([text e] & s' & ->).
        eexists _, _. reflexivity.
      * destruct (Client.json_Decode W (Client.Body resp)) as [apiResp|e];
          [|apply IH].
        destruct (Client.Choices apiResp); eexists _, _; reflexivity.
Qed.

(** An attempt that fails in a way that is retried hands its error to the
    next iteration. *)
Lemma attempts_retried (W : Client.World) (options : Client.Options)
      (n a : nat) (last : option Client.err) (e : Client.err) :
  Client.failureOf W options (Client.client_Do W a) = Some e ->
  Client.attempts W options (S n) a last =
  Client.attempts W options n (S a) (Some e).
Proof.
  unfold Client.failureOf, Client.drained. cbn [Client.attempts].
  destruct (Client.client_Do W a) as [m|resp].
  - intro H. now inversion H.
  - destruct (negb (Client.StatusCode resp =? Client.StatusOK)%Z).
    + destruct (ReadAll (Client.Body resp)) as [x dr]. cbn [snd].
      destruct (Client.shouldRetry (Client.StatusCode resp)); cbn [negb];
        intro H; [now inversion H | discriminate].
    + destruct (Client.Stream options); [discriminate|].
      destruct (Client.json_Decode W (Client.Body resp)); [discriminate|].
      intro H. now inversion H.
Qed.

(** After [k] attempts that are retried the loop is at attempt [k]. *)
Lemma attempts_skip (W : Client.World) (options : Client.Options) (k : nat) :
  forall n last,
    (forall i, i < k ->
               Client.failureOf W options (Client.client_Do W i) <> None) ->
    exists last',
      Client.attempts W options (k + n) 0 last =
      Client.attempts W options n k last' /\
      (0 < k -> last' = Client.failureOf W options (Client.client_Do W (k - 1))).
Proof.
  induction k as [|k IH]; intros n last H.
  - exists last. split; [reflexivity | lia].
  - destruct (IH (S n) last) as (last' & E & _); [intros; apply H; lia|].
    destruct (Client.failureOf W options (Client.client_Do W k)) as [e|] eqn:Ef;
      [|exfalso; now apply (H k (Nat.lt_succ_diag_r k))].
    exists (Some e). split.
    + replace (S k + n) with (k + S n) by lia. rewrite E.
      now apply attempts_retried.
    + intros _. replace (S k - 1) with k by lia. now rewrite Ef.
Qed.

(** [Completion] with inputs that reach the sending of requests is the
    retry loop. *)
Lemma Completion_attempts (W : Client.World) (model token message : string)
      (opts : list Client.Option) :
  Client.sendsRequests W model token message opts ->
  Client.Completion W model token message opts =
  Client.attempts W (Client.applyOptions opts Client.defaultOptions)
    (Z.to_nat (Client.getMaxRetries
                 (Client.Retry (Client.applyOptions opts Client.defaultOptions)) + 1))
    0 None.
Proof.
  intros (Ht & Hm & body & Hb & Hr). unfold Client.Completion.
  apply String.eqb_neq in Ht, Hm. now rewrite Ht, Hm, Hb, Hr.
Qed.

(** The loop at the attempt that decides, after [k] retried attempts. *)
Lemma Completion_at (W : Client.World) (model token message : string)
      (opts : list Client.Option) (k : nat) :
  let options := Client.applyOptions opts Client.defaultOptions in
  Client.sendsRequests W model token message opts ->
  (Z.of_nat k <= Client.getMaxRetries (Client.Retry options))%Z ->
  (forall i, i < k -> Client.failureOf W options (Client.client_Do W i) <> None) ->
  exists n last,
    Client.Completion W model token message opts =
    Client.attempts W options (S n) k last.
Proof.
  intros options Hs Hk Hr. rewrite (Completion_attempts Hs). fold options.
  set (m := Client.getMaxRetries (Client.Retry options)) in *.
  replace (Z.to_nat (m + 1)) with (k + S (Z.to_nat m - k)) by lia.
  destruct (attempts_skip W options (S (Z.to_nat m - k)) None Hr)
    as (last' & E & _).
  exists (Z.to_nat m - k), last'. exact E.
Qed.

(** X8.  Whatever options of the package are applied to the defaults, in
    any number and order, the base URL is not empty, the timeout is
    positive, the temperature compares neither below 0 nor above 1 (as a
    value that is not a number also does), a retry
    configuration has a positive number of retries and a positive delay
    with four times the delay as its cap, and the number of retries is not
    negative. *)
Theorem X8_options_stay_well_configured (opts : list Client.Option) :
  Forall Client.packageOption opts ->
  Client.wellConfigured (Client.applyOptions opts Client.defaultOptions) /\
  (0 <= Client.getMaxRetries
          (Client.Retry (Client.applyOptions opts Client.defaultOptions)))%Z.
Proof.
  intro H.
  assert (Hw : Client.wellConfigured (Client.applyOptions opts Client.defaultOptions)).
  { unfold Client.applyOptions.
    assert (H0 : Client.wellConfigured Client.defaultOptions).
    { unfold Client.wellConfigured. cbn.
      repeat split; try reflexivity; discriminate. }
    revert H0. generalize Client.defaultOptions.
    induction H as [|opt opts Hp _ IH]; intros o Ho; [exact Ho|].
    cbn [fold_left]. apply IH. now apply packageOption_keeps. }
  split; [exact Hw|].
  destruct Hw as (_ & _ & _ & _ & Hr). unfold Client.getMaxRetries.
  destruct (Client.Retry _); lia.
Qed.

(** X9.  [Completion] always returns, after at most one call of
    [client.Do] more than the configured number of retries, and after none
    at all when the token or the message is empty: it then returns
    [ErrEmptyToken], or [ErrEmptyMessage] for an empty message with a token.
    (The number of retries is below the largest [int].) *)
Theorem X9_requests_bounded (W : Client.World) (model token message : string)
        (opts : list Client.Option) :
  (Client.getMaxRetries
     (Client.Retry (Client.applyOptions opts Client.defaultOptions))
   < 2 ^ 31 - 1)%Z ->
  exists res n,
    Client.Completion W model token message opts = Some (res, n) /\
    n <= Z.to_nat (Client.getMaxRetries
                     (Client.Retry (Client.applyOptions opts Client.defaultOptions))
                   + 1) /\
    (token = EmptyString ->
     res = (EmptyString, Some Client.ErrEmptyToken) /\ n = 0) /\
    (token <> EmptyString -> message = EmptyString ->
     res = (EmptyString, Some Client.ErrEmptyMessage) /\ n = 0).
Proof.
  intros _. unfold Client.Completion.
  destruct (String.eqb token EmptyString) eqn:Et.
  { apply String.eqb_eq in Et. eexists _, _. split; [reflexivity|].
    split; [lia|]. split; [intros _; split; reflexivity|].
    intro Hn. contradiction. }
  apply String.eqb_neq in Et.
  destruct (String.eqb message EmptyString) eqn:Em.
  { eexists _, _. split; [reflexivity|].
    split; [lia|]. split; [intro H; contradiction|].
    intros _ _. split; reflexivity. }
  apply String.eqb_neq in Em. cbv zeta.
  destruct (Client.json_Marshal W _) as [body|e].
  2:{ eexists _, _. split; [reflexivity|].
      split; [lia|]. split; [intro H; contradiction|].
      intros _ H. contradiction. }
  destruct (Client.http_NewRequest W _ body) as [e|].
  { eexists _, _. split; [reflexivity|].
    split; [lia|]. split; [intro H; contradiction|].
    intros _ H. contradiction. }
  destruct (attempts_total W (Client.applyOptions opts Client.defaultOptions)
              (Z.to_nat (Client.getMaxRetries
                 (Client.Retry (Client.applyOptions opts Client.defaultOptions)) + 1))
              0 None) as (res & k & E).
  exists res, k. split; [exact E|]. apply attempts_bound in E.
  split; [lia|]. split; [intro H; contradiction|].
  intros _ H. contradiction.
Qed.

(** X10.  After any number of attempts that are retried, a response whose
    status is not 200, not 429 and below 500 ends [Completion] at once: it
    returns the empty string with the error of [handleHTTPError], which is
    [ErrInvalidToken] for status 401, and makes no further call. *)
Theorem X10_final_status_not_retried
        (W : Client.World) (model token message : string)
        (opts : list Client.Option) (k : nat) (resp : Client.Response) :
  let options := Client.applyOptions opts Client.defaultOptions in
  Client.sendsRequests W model token message opts ->
  (Z.of_nat k <= Client.getMaxRetries (Client.Retry options))%Z ->
  (forall i, i < k -> Client.failureOf W options (Client.client_Do W i) <> None) ->
  Client.client_Do W k = Client.DoResponse resp ->
  Client.StatusCode resp <> Client.StatusOK ->
  Client.shouldRetry (Client.StatusCode resp) = false ->
  Client.Completion W model token message opts =
    Some ((EmptyString, Some (Client.handleHTTPError (Client.drained resp))), S k) /\
  (Client.StatusCode resp = Client.StatusUnauthorized ->
   Client.handleHTTPError (Client.drained resp) = Client.ErrInvalidToken).
Proof.
  intros options Hs Hk Hr Hd Hc Hn.
  destruct (@Completion_at W model token message opts k Hs Hk Hr)
    as (n & last & E).
  split.
  - rewrite E. fold options. cbn [Client.attempts]. rewrite Hd.
    apply Z.eqb_neq in Hc. rewrite Hc, Hn. cbn [negb]. unfold Client.drained.
    now destruct (ReadAll (Client.Body resp)).
  - intro H401. unfold Client.handleHTTPError, Client.drained.
    cbn [Client.StatusCode]. now rewrite H401.
Qed.

(** X11.  In [Completion] the error of a response with status 400 never
    carries the body of the response: the body has been read to its end
    before [handleHTTPError] reads it, so the text after [bad request:] is
    empty whatever the server sent. *)
Theorem X11_bad_request_body_lost
        (W : Client.World) (model token message : string)
        (opts : list Client.Option) (k : nat) (resp : Client.Response) :
  let options := Client.applyOptions opts Client.defaultOptions in
  Client.sendsRequests W model token message opts ->
  (Z.of_nat k <= Client.getMaxRetries (Client.Retry options))%Z ->
  (forall i, i < k -> Client.failureOf W options (Client.client_Do W i) <> None) ->
  Client.client_Do W k = Client.DoResponse resp ->
  Client.StatusCode resp = Client.StatusBadRequest ->
  Client.Completion W model token message opts =
    Some ((EmptyString,
           Some (Client.Errorf "bad request: %s" [Client.AString EmptyString])),
          S k).
Proof.
  intros options Hs Hk Hr Hd Hc.
  destruct (@Completion_at W model token message opts k Hs Hk Hr)
    as (n & last & E).
  rewrite E. fold options. cbn [Client.attempts]. rewrite Hd, Hc.
  reflexivity.
Qed.

(** X12.  In stream mode a response with status 200 whose body makes
    progress ends [Completion] with the result of [processStream] on that
    body, the same with and without [Debug]; an error of the stream is
    returned as it is and the request is not sent again. *)
Theorem X12_stream_result_is_processStream
        (W : Client.World) (model token message : string)
        (opts : list Client.Option) (k : nat) (resp : Client.Response)
        (text : string) (e : option error) (s' : streamReader) :
  let options := Client.applyOptions opts Client.defaultOptions in
  Client.sendsRequests W model token message opts ->
  (Z.of_nat k <= Client.getMaxRetries (Client.Retry options))%Z ->
  (forall i, i < k -> Client.failureOf W options (Client.client_Do W i) <> None) ->
  Client.client_Do W k = Client.DoResponse resp ->
  Client.StatusCode resp = Client.StatusOK ->
  Client.Stream options = true ->
  progressing (Client.Body resp) ->
  processStream (Client.Body resp) (streamOptions false) = Some ((text, e), s') ->
  Client.Completion W model token message opts =
    Some ((text, option_map Client.FromStream e), S k).
Proof.
  intros options Hs Hk Hr Hd Hc Hst Hp Hps.
  destruct (@Completion_at W model token message opts k Hs Hk Hr)
    as (n & last & E).
  rewrite E. fold options. cbn [Client.attempts]. rewrite Hd, Hc, Hst.
  cbn [Z.eqb Client.StatusOK negb Pos.eqb].
  pose proof (processStream_streamBody options
                (streamOptions (Client.Debug options)) (streamOptions false) Hp) as H.
  rewrite Hps in H.
  destruct (processStream (Client.streamBody options (Client.Body resp)) _)
    as [[[text' e'] s'']|]; [|discriminate].
  cbn in H. now inversion H.
Qed.

(** X13.  When every attempt fails in a way that is retried, [Completion]
    returns after exactly one call more than the number of retries, with
    the empty string and the error of the last attempt wrapped as
    [max retries exceeded]. *)
Theorem X13_retries_exhausted
        (W : Client.World) (model token message : string)
        (opts : list Client.Option) (m : nat) :
  let options := Client.applyOptions opts Client.defaultOptions in
  Client.sendsRequests W model token message opts ->
  Client.getMaxRetries (Client.Retry options) = Z.of_nat m ->
  (Z.of_nat m < 2 ^ 31 - 1)%Z ->
  (forall i, i <= m -> Client.failureOf W options (Client.client_Do W i) <> None) ->
  Client.Completion W model token message opts =
    Some ((EmptyString,
           Some (Client.Errorf "max retries exceeded: %w"
                   [Client.AError (Client.failureOf W options (Client.client_Do W m))])),
          S m).
Proof.
  intros options Hs Hm _ Hr. rewrite (Completion_attempts Hs). fold options.
  rewrite Hm. replace (Z.to_nat (Z.of_nat m + 1)) with (S m + 0) by lia.
  destruct (attempts_skip W options 0 None (k := S m)) as (last' & E & El).
  { intros i Hi. apply Hr. lia. }
  rewrite E, El by lia. cbn [Client.attempts].
  now replace (S m - 1) with m by lia.
Qed.

(** X14.  Without stream mode a response with status 200 that decodes ends
    [Completion]: with the content of the first choice and no error, or,
    when there is no choice, with the error [no content in response], which
    is not retried. *)
Theorem X14_first_choice_returned
        (W : Client.World) (model token message : string)
        (opts : list Client.Option) (k : nat) (resp : Client.Response)
        (apiResp : Client.apiResponse) :
  let options := Client.applyOptions opts Client.defaultOptions in
  Client.sendsRequests W model token message opts ->
  (Z.of_nat k <= Client.getMaxRetries (Client.Retry options))%Z ->
  (forall i, i < k -> Client.failureOf W options (Client.client_Do W i) <> None) ->
  Client.client_Do W k = Client.DoResponse resp ->
  Client.StatusCode resp = Client.StatusOK ->
  Client.Stream options = false ->
  Client.json_Decode W (Client.Body resp) = inl apiResp ->
  Client.Completion W model token message opts =
    Some (match Client.Choices apiResp with
          | c :: _ => (Client.MsgContent (Client.Message c), None)
          | [] => (EmptyString, Some (Client.Errorf "no content in response" []))
          end, S k).
Proof.
  intros options Hs Hk Hr Hd Hc Hst Hdec.
  destruct (@Completion_at W model token message opts k Hs Hk Hr)
    as (n & last & E).
  rewrite E. fold options. cbn [Client.attempts]. rewrite Hd, Hc, Hst, Hdec.
  cbn [Z.eqb Client.StatusOK negb Pos.eqb].
  now destruct (Client.Choices apiResp).
Qed.
Lemma modelAttempts_retried (W : Client.World) (n a : nat)
      (last : option Client.err) (e : Client.err) :
  Client.modelFailureOf W (Client.client_Do W a) = Some e ->
  Client.modelAttempts W (S n) a last = Client.modelAttempts W n (S a) (Some e).
Proof.
  unfold Client.modelFailureOf. cbn [Client.modelAttempts].
  destruct (Client.client_Do W a) as [m|resp].
  - intro H. now inversion H.
  - destruct (negb (Client.StatusCode resp =? Client.StatusOK)%Z &&
              negb (Client.StatusCode resp =? Client.StatusCreated)%Z).
    + destruct (Client.shouldRetry (Client.StatusCode resp)); cbn [negb];
        intro H; [now inversion H | discriminate].
    + destruct (Client.json_DecodeModels W (Client.Body resp)); [discriminate|].
      intro H. now inversion H.
Qed.

Lemma modelAttempts_skip (W : Client.World) (k : nat) :
  forall n last,
    (forall i, i < k -> Client.modelFailureOf W (Client.client_Do W i) <> None) ->
    exists last',
      Client.modelAttempts W (k + n) 0 last = Client.modelAttempts W n k last'.
Proof.
  induction k as [|k IH]; intros n last H.
  - now exists last.
  - destruct (IH (S n) last) as (last' & E); [intros; apply H; lia|].
    destruct (Client.modelFailureOf W (Client.client_Do W k)) as [e|] eqn:Ef;
      [|exfalso; now apply (H k (Nat.lt_succ_diag_r k))].
    exists (Some e). replace (S k + n) with (k + S n) by lia. rewrite E.
    now apply modelAttempts_retried.
Qed.

Lemma ListModels_at (W : Client.World) (token : string)
      (opts : list Client.Option) (k : nat) :
  let options := Client.applyOptions opts Client.defaultOptions in
  token <> EmptyString ->
  Client.http_NewRequest W (String.append (Client.BaseURL options) "/models")
                         (bs "{}") = None ->
  (Z.of_nat k <= Client.getMaxRetries (Client.Retry options))%Z ->
  (forall i, i < k -> Client.modelFailureOf W (Client.client_Do W i) <> None) ->
  exists n last,
    Client.ListModels W token opts = Client.modelAttempts W (S n) k last.
Proof.
  intros options Ht Hq Hk Hr. unfold Client.ListModels. fold options.
  apply String.eqb_neq in Ht. rewrite Ht, Hq.
  set (m := Client.getMaxRetries (Client.Retry options)) in *.
  replace (Z.to_nat (m + 1)) with (k + S (Z.to_nat m - k)) by lia.
  destruct (modelAttempts_skip W (S (Z.to_nat m - k)) None Hr) as (last' & E).
  exists (Z.to_nat m - k), last'. exact E.
Qed.

(** X15.  In [ListModels], unlike [Completion], the error of a response
    with status 400 carries the whole body of the response after
    [bad request:], and the request is not sent again. *)
Theorem X15_list_models_bad_request_keeps_body
        (W : Client.World) (token : string) (opts : list Client.Option)
        (k : nat) (resp : Client.Response) :
  let options := Client.applyOptions opts Client.defaultOptions in
  token <> EmptyString ->
  Client.http_NewRequest W (String.append (Client.BaseURL options) "/models")
                         (bs "{}") = None ->
  (Z.of_nat k <= Client.getMaxRetries (Client.Retry options))%Z ->
  (forall i, i < k -> Client.modelFailureOf W (Client.client_Do W i) <> None) ->
  Client.client_Do W k = Client.DoResponse resp ->
  Client.StatusCode resp = Client.StatusBadRequest ->
  Client.ListModels W token opts =
    (([], Some (Client.Errorf "bad request: %s"
                  [Client.AString
                     (string_of_list_byte (concat (chunks (Client.Body resp))))])),
     S k).
Proof.
  intros options Ht Hq Hk Hr Hd Hc.
  destruct (@ListModels_at W token opts k Ht Hq Hk Hr) as (n & last & E).
  rewrite E. cbn [Client.modelAttempts]. rewrite Hd.
  unfold Client.handleHTTPError. rewrite Hc. reflexivity.
Qed.

Lemma model_names (modelsResp : Client.ModelsResponse) :
  map Client.Name
      (flat_map (fun p => map (fun m => {| Client.Name := Client.EntryName m |})
                              (Client.Models p)) modelsResp) =
  concat (map (fun p => map Client.EntryName (Client.Models p)) modelsResp).
Proof.
  induction modelsResp as [|p ps IH]; [reflexivity|].
  cbn [flat_map map concat]. rewrite map_app, map_map, IH. f_equal.
Qed.

(** X16.  [ListModels] accepts the statuses 200 and 201: after any number
    of attempts that are retried, such a response that decodes ends it with
    no error and with the models whose names are those of all providers, in
    the order of the response. *)
Theorem X16_list_models_names_in_order
        (W : Client.World) (token : string) (opts : list Client.Option)
        (k : nat) (resp : Client.Response) (modelsResp : Client.ModelsResponse) :
  let options := Client.applyOptions opts Client.defaultOptions in
  token <> EmptyString ->
  Client.http_NewRequest W (String.append (Client.BaseURL options) "/models")
                         (bs "{}") = None ->
  (Z.of_nat k <= Client.getMaxRetries (Client.Retry options))%Z ->
  (forall i, i < k -> Client.modelFailureOf W (Client.client_Do W i) <> None) ->
  Client.client_Do W k = Client.DoResponse resp ->
  Client.StatusCode resp = Client.StatusOK \/
  Client.StatusCode resp = Client.StatusCreated ->
  Client.json_DecodeModels W (Client.Body resp) = inl modelsResp ->
  exists models,
    Client.ListModels W token opts = ((models, None), S k) /\
    map Client.Name models =
    concat (map (fun p => map Client.EntryName (Client.Models p)) modelsResp).
Proof.
  intros options Ht Hq Hk Hr Hd Hc Hdec.
  destruct (@ListModels_at W token opts k Ht Hq Hk Hr) as (n & last & E).
  rewrite E. cbn [Client.modelAttempts]. rewrite Hd, Hdec.
  assert (Hs : negb (Client.StatusCode resp =? Client.StatusOK)%Z &&
               negb (Client.StatusCode resp =? Client.StatusCreated)%Z = false).
  { destruct Hc as [-> | ->]; reflexivity. }
  rewrite Hs. eexists. split; [reflexivity | apply model_names].
Qed.
End ClientFacts.

(** ** The examples evaluated *)

#[local] Existing Instance testLib.

(** Replace the result of [events] on a closed stream by its value. *)
Ltac run_events E tr t :=
  match goal with
  | |- context [events ?s] =>
      destruct (events s) as [[tr t]|] eqn:E;
      [ let E' := fresh in
        pose proof E as E'; vm_compute in E';
        injection E' as <- <-
      | vm_compute in E; discriminate E ]
  end.

Ltac wellformed_payload :=
  first [ left; reflexivity
        | right; left; reflexivity
        | right; right; eexists; vm_compute; reflexivity ].

Ltac wellformed_payloads :=
  cbn [map fst];
  repeat (apply Forall_cons; [wellformed_payload|]); apply Forall_nil.

Ltac read_lines :=
  repeat (eapply Reads_line; [vm_compute; reflexivity|]);
  eapply Reads_error; vm_compute; reflexivity.

(** The cases of [TestStreamReader]. *)

Example test_simple_event :
  payloadsOf (golit "data: {'content':'Hello'}\n\n") =
  Some [golit "{'content':'Hello'}"].
Proof. vm_compute. reflexivity. Qed.

Example test_multiple_events :
  payloadsOf (golit "data: {'content':'Hello'}\n\ndata: {'content':'World'}\n\n") =
  Some [golit "{'content':'Hello'}"; golit "{'content':'World'}"].
Proof. vm_compute. reflexivity. Qed.

Example test_with_comments :
  payloadsOf (golit ": keep-alive\ndata: {'content':'Hello'}\n\n") =
  Some [golit "{'content':'Hello'}"].
Proof. vm_compute. reflexivity. Qed.

Example test_with_empty_lines :
  payloadsOf (golit "\ndata: {'content':'Hello'}\n\n\n") =
  Some [golit "{'content':'Hello'}"].
Proof. vm_compute. reflexivity. Qed.

Example test_empty_input : payloadsOf [] = Some [].
Proof. vm_compute. reflexivity. Qed.

(** The cases of [TestProcessStream]. *)

Example test_simple_message :
  resultOf (golit "data: {'choices':[{'delta':{'content':'Hello'}}]}\n\ndata: {'choices':[{'delta':{'content':' World'}}]}\n\ndata: [DONE]\n\n") =
  Some ("Hello World"%string, None).
Proof. vm_compute. reflexivity. Qed.

Example test_with_role_prefix :
  resultOf (golit "data: {'choices':[{'delta':{'role':'assistant','content':'Hello'}}]}\n\ndata: {'choices':[{'delta':{'content':'!'}}]}\n\ndata: [DONE]\n\n") =
  Some ("Hello!"%string, None).
Proof. vm_compute. reflexivity. Qed.

Example test_invalid_json :
  resultOf (golit "data: {invalid json}\n\n") =
  Some (EmptyString, Some ErrStreamCorrupted).
Proof. vm_compute. reflexivity. Qed.

Example test_empty_choices :
  resultOf (golit "data: {'choices':[]}\n\n") = Some (EmptyString, None).
Proof. vm_compute. reflexivity. Qed.

(** One hundred reads in a row that deliver nothing make [bufio] give up
    with [ErrNoProgress] before the text is reached; ninety-nine do not. *)
Example stalled_reads :
  option_map (fun x => (map fst (fst x), fst (snd x)))
    (events (newStreamReader
               (mkReader (repeat [] 100 ++ [golit "data: x\n\n"]) EOF 0))) =
  Some ([], ErrNoProgress) /\
  option_map (fun x => (map fst (fst x), fst (snd x)))
    (events (newStreamReader
               (mkReader (repeat [] 99 ++ [golit "data: x\n\n"]) EOF 0))) =
  Some ([bs "x"], EOF).
Proof. split; vm_compute; reflexivity. Qed.

(** ** The theorems on the examples *)

Lemma C1_witness :
  exists tr t,
    events (newStreamReader simpleMessage) = Some (tr, t) /\
    fst t = EOF /\
    Forall (fun p => p = [] \/ p = bs "[DONE]" \/
                     exists resp, json_Unmarshal p = Some resp) (map fst tr) /\
    processStream simpleMessage (mkOptions false) =
    Some ((join (flat_map fragmentsOf (map fst tr)), None), snd t) /\
    join (flat_map fragmentsOf (map fst tr)) = "Hello World"%string.
Proof.
  run_events E tr t. eexists _, _. split; [reflexivity|].
  assert (H1 : EOF = EOF) by reflexivity.
  split; [exact H1|]. split; [wellformed_payloads|].
  split; [|vm_compute; reflexivity].
  apply (C1_processStream_concatenates_fragments
           simpleMessage (mkOptions false) E H1).
  wellformed_payloads.
Defined.

Lemma C2_witness :
  exists tr t,
    events (newStreamReader invalidJSON) = Some (tr, t) /\
    Exists (fun ev => fst ev <> [] /\ fst ev <> bs "[DONE]" /\
                      json_Unmarshal (fst ev) = None) tr /\
    exists pre p sp post,
      tr = pre ++ (p, sp) :: post /\
      Forall (fun q => q = [] \/ q = bs "[DONE]" \/
                       exists resp, json_Unmarshal q = Some resp) (map fst pre) /\
      (p <> [] /\ p <> bs "[DONE]" /\ json_Unmarshal p = None) /\
      processStream invalidJSON (mkOptions true) =
      Some ((EmptyString, Some ErrStreamCorrupted), sp).
Proof.
  run_events E tr t. eexists _, _. split; [reflexivity|].
  match goal with
  | |- ?A /\ _ => assert (H1 : A)
  end.
  { apply Exists_cons_hd. cbn [fst].
    split; [discriminate|]. split; [discriminate|]. vm_compute. reflexivity. }
  split; [exact H1|].
  apply (C2_malformed_payload_aborts invalidJSON (mkOptions true) E H1).
Defined.

Lemma C7_witness :
  exists tr t,
    events (newStreamReader doneInTheMiddle) = Some (tr, t) /\
    option_map fst (processStream doneInTheMiddle (mkOptions false)) =
      Some (aggregate EmptyString
              (filter (fun p => negb (absorbed p)) (map fst tr)) (fst t)) /\
    (fst t = EOF -> Forall (fun p => absorbed p = true) (map fst tr) ->
     processStream doneInTheMiddle (mkOptions false) =
     Some ((EmptyString, None), snd t)) /\
    (forall pre post,
        map fst tr = pre ++ bs "[DONE]" :: post -> fst t = EOF ->
        Forall (fun p => p = [] \/ p = bs "[DONE]" \/
                         exists resp, json_Unmarshal p = Some resp) (pre ++ post) ->
        processStream doneInTheMiddle (mkOptions false) =
        Some ((String.append (join (flat_map fragmentsOf pre))
                             (join (flat_map fragmentsOf post)), None), snd t)) /\
    (fst t = EOF -> ~ In (bs "[DONE]") (map fst tr) ->
     Forall (fun p => p = [] \/ exists resp, json_Unmarshal p = Some resp)
            (map fst tr) ->
     processStream doneInTheMiddle (mkOptions false) =
     Some ((join (flat_map fragmentsOf (map fst tr)), None), snd t)).
Proof.
  run_events E tr t. eexists _, _. split; [reflexivity|].
  apply (C7_absorbed_payloads_and_terminator
           doneInTheMiddle (mkOptions false) E).
Defined.

Lemma C8_witness :
  exists tr t,
    events (newStreamReader resetStream) = Some (tr, t) /\
    progressing resetStream /\
    final resetStream <> EOF /\
    Forall (fun p => p = [] \/ p = bs "[DONE]" \/
                     exists resp, json_Unmarshal p = Some resp) (map fst tr) /\
    readEvent (last (map snd tr) (newStreamReader resetStream)) =
      Some (([], Some (final resetStream)), snd t) /\
    processStream resetStream (mkOptions false) =
      Some ((EmptyString, Some (final resetStream)), snd t) /\
    calls (rd (reader (snd t))) =
      calls resetStream + length (chunks resetStream) + 1.
Proof.
  run_events E tr t. eexists _, _. split; [reflexivity|].
  assert (H1 : progressing resetStream) by reflexivity.
  assert (H2 : final resetStream <> EOF) by discriminate.
  split; [exact H1|]. split; [exact H2|]. split; [wellformed_payloads|].
  apply (C8_read_failure_propagated (mkOptions false) E H1 H2).
  wellformed_payloads.
Defined.

Lemma C3_witness :
  let text := golit "data: ab\n\n: x\ndata: c\n\n" in
  let cs := [golit "da"; []; golit "ta: ab\n"; golit "\n: x\ndata: c"; [];
             golit "\n\n"] in
  concat cs = text /\
  steady cs maxConsecutiveEmptyReads = true /\
  exists tr1 t1 tr2 t2,
    events (newStreamReader (mkReader cs EOF 0)) = Some (tr1, t1) /\
    events (newStreamReader (mkReader [text] EOF 0)) = Some (tr2, t2) /\
    map fst tr1 = map fst tr2 /\ fst t1 = fst t2.
Proof.
  intros text cs.
  assert (H1 : concat cs = text) by (vm_compute; reflexivity).
  assert (H2 : steady cs maxConsecutiveEmptyReads = true)
    by (vm_compute; reflexivity).
  split; [exact H1|]. split; [exact H2|].
  apply (@C3_framing_independent_of_chunking testLib text cs EOF 0 0 H1 H2).
Defined.

Lemma C4_witness :
  let r := body (golit "data: a\n\ndata: b") in
  let ls := [golit "data: a\n"; golit "\n"] in
  let rE := mkBufio (mkReader [] EOF 2) [] in
  Reads (NewReader r) ls (golit "data: b") EOF rE /\
  exists tr t,
    events (newStreamReader r) = Some (tr, t) /\
    map fst tr = specPayloads EOF ls /\
    Forall (fun p => p <> []) (map fst tr) /\
    (forall line, HasPrefix line (bs "data: ") = true ->
                  onlyWhitespace line = false /\
                  HasPrefix line (bs ":") = false).
Proof.
  intros r ls rE.
  assert (H1 : Reads (NewReader r) ls (golit "data: b") EOF rE) by read_lines.
  split; [exact H1|].
  apply (@C4_payloads_follow_framing_rules testLib r ls (golit "data: b") EOF rE H1).
Defined.

Lemma C5_witness :
  let r := mkBufio (mkReader [] EOF 1) (bs "data: tail") in
  let r' := mkBufio (mkReader [] EOF 2) [] in
  let r0 := mkReader [] EOF 0 in
  ReadBytes r = ((bs "data: tail", Some EOF), r') /\
  progressing r0 /\ concat (chunks r0) = [] /\ final r0 = EOF /\
  readEvent_loop 1 r (bs "x") =
    Some ((if 0 <? length (bs "x") then (bs "x", None) else ([], Some EOF)),
          mkStreamReader r' (bs "x")) /\
  (exists s'', readEvent (mkStreamReader r' (bs "x")) =
               Some (([], Some EOF), s'')) /\
  (exists s0, processStream r0 (mkOptions false) =
              Some ((EmptyString, None), s0)).
Proof.
  intros r r' r0.
  assert (H1 : ReadBytes r = ((bs "data: tail", Some EOF), r'))
    by (vm_compute; reflexivity).
  assert (H2 : progressing r0) by reflexivity.
  assert (H3 : concat (chunks r0) = []) by reflexivity.
  assert (H4 : final r0 = EOF) by reflexivity.
  split; [exact H1|]. split; [exact H2|]. split; [exact H3|].
  split; [exact H4|].
  apply (@C5_end_of_input testLib 0 r (bs "x") (bs "data: tail") r' r0
           (mkOptions false) H1 H2 H3 H4).
Defined.

Lemma C6_witness :
  let r1 := body (golit "data: a\n\n") in
  let r2 := mkReader [golit ": ping\ndata: a\n"; golit ": pong\n\n"] EOF 0 in
  progressing r1 /\ progressing r2 /\ final r1 = final r2 /\
  commentEdit (concat (chunks r1)) (concat (chunks r2)) /\
  exists tr1 t1 tr2 t2,
    events (newStreamReader r1) = Some (tr1, t1) /\
    events (newStreamReader r2) = Some (tr2, t2) /\
    map fst tr1 = map fst tr2 /\ fst t1 = fst t2.
Proof.
  intros r1 r2.
  assert (H1 : progressing r1) by reflexivity.
  assert (H2 : progressing r2) by reflexivity.
  assert (H3 : final r1 = final r2) by reflexivity.
  assert (H4 : commentEdit (concat (chunks r1)) (concat (chunks r2))).
  { assert (S1 : commentEdit ([] ++ golit "data: a\n\n")
                             ([] ++ golit ": ping\n" ++ golit "data: a\n\n")).
    { apply ce_insert; [|split]; vm_compute; reflexivity. }
    assert (S2 : commentEdit
                   (golit ": ping\ndata: a\n" ++ golit "\n")
                   (golit ": ping\ndata: a\n" ++ golit ": pong\n" ++ golit "\n")).
    { apply ce_insert; [|split]; vm_compute; reflexivity. }
    vm_compute in S1, S2. vm_compute. exact (ce_trans S1 S2). }
  split; [exact H1|]. split; [exact H2|]. split; [exact H3|].
  split; [exact H4|].
  apply (@C6_comment_lines_invisible testLib r1 r2 H1 H2 H3 H4).
Defined.

Lemma C9_witness :
  let a := golit "data: a\n\n" in
  let tl := golit "data: {'choices':[]}" in
  let r1 := mkReader [a; tl] EOF 0 in
  let r2 := body a in
  progressing r1 /\ progressing r2 /\ final r1 = final r2 /\
  lineClosed a /\ cutLine tl = None /\
  concat (chunks r1) = a ++ tl /\ concat (chunks r2) = a /\
  exists tr1 t1 tr2 t2,
    events (newStreamReader r1) = Some (tr1, t1) /\
    events (newStreamReader r2) = Some (tr2, t2) /\
    map fst tr1 = map fst tr2 /\ fst t1 = fst t2 /\
    option_map fst (processStream r1 (mkOptions false)) =
    option_map fst (processStream r2 (mkOptions false)).
Proof.
  intros a tl r1 r2.
  assert (H1 : progressing r1) by (vm_compute; reflexivity).
  assert (H2 : progressing r2) by (vm_compute; reflexivity).
  assert (H3 : final r1 = final r2) by (vm_compute; reflexivity).
  assert (H4 : lineClosed a) by (vm_compute; reflexivity).
  assert (H5 : cutLine tl = None) by (vm_compute; reflexivity).
  assert (H6 : concat (chunks r1) = a ++ tl) by (vm_compute; reflexivity).
  assert (H7 : concat (chunks r2) = a) by (vm_compute; reflexivity).
  repeat (split; [assumption|]).
  apply (@C9_unterminated_last_line_discarded testLib r1 r2 a tl
           (mkOptions false) H1 H2 H3 H4 H5 H6 H7).
Defined.

Lemma C10_witness :
  let a := golit "data: a\n" in
  let c := golit "data:{'choices':[]}\n" in
  let b := golit "\n" in
  let r1 := body (a ++ b) in
  let r2 := body (a ++ c ++ b) in
  progressing r1 /\ progressing r2 /\ final r1 = final r2 /\
  lineClosed a /\ bareDataLine c /\
  concat (chunks r1) = a ++ b /\ concat (chunks r2) = a ++ c ++ b /\
  bs "data: " = [x64; x61; x74; x61; x3a; x20] /\
  exists tr1 t1 tr2 t2,
    events (newStreamReader r1) = Some (tr1, t1) /\
    events (newStreamReader r2) = Some (tr2, t2) /\
    map fst tr1 = map fst tr2 /\ fst t1 = fst t2.
Proof.
  intros a c b r1 r2.
  assert (H1 : progressing r1) by (vm_compute; reflexivity).
  assert (H2 : progressing r2) by (vm_compute; reflexivity).
  assert (H3 : final r1 = final r2) by (vm_compute; reflexivity).
  assert (H4 : lineClosed a) by (vm_compute; reflexivity).
  assert (H5 : bareDataLine c) by (repeat split; vm_compute; reflexivity).
  assert (H6 : concat (chunks r1) = a ++ b) by (vm_compute; reflexivity).
  assert (H7 : concat (chunks r2) = a ++ c ++ b) by (vm_compute; reflexivity).
  repeat (split; [assumption|]).
  apply (@C10_data_without_space_ignored testLib r1 r2 a c b
           H1 H2 H3 H4 H5 H6 H7).
Defined.

(** ** The further theorems on examples *)

Ltac compute_eq := vm_compute; reflexivity.

Ltac all_lines :=
  vm_compute; repeat (apply Forall_cons; [vm_compute; try reflexivity|]);
  apply Forall_nil.

Lemma X1_witness :
  let a := golit "data: a\n" in
  let c := golit "event: message\n" in
  let b := golit "\n" in
  let r1 := body (a ++ b) in
  let r2 := mkReader [a; c; b] EOF 0 in
  progressing r1 /\ progressing r2 /\ final r1 = final r2 /\
  lineClosed a /\ fieldLine c /\
  concat (chunks r1) = a ++ b /\ concat (chunks r2) = a ++ c ++ b /\
  exists tr1 t1 tr2 t2,
    events (newStreamReader r1) = Some (tr1, t1) /\
    events (newStreamReader r2) = Some (tr2, t2) /\
    map fst tr1 = map fst tr2 /\ fst t1 = fst t2.
Proof.
  intros a c b r1 r2.
  assert (H1 : progressing r1) by compute_eq.
  assert (H2 : progressing r2) by compute_eq.
  assert (H3 : final r1 = final r2) by reflexivity.
  assert (H4 : lineClosed a) by compute_eq.
  assert (H5 : fieldLine c).
  { split; [compute_eq|]. split; [|compute_eq].
    exists "e"%byte, (golit "vent: message\n").
    split; [compute_eq|]. split; [compute_eq|]. split; [compute_eq|discriminate]. }
  assert (H6 : concat (chunks r1) = a ++ b) by compute_eq.
  assert (H7 : concat (chunks r2) = a ++ c ++ b) by compute_eq.
  repeat (split; [assumption|]).
  apply (@X1_unused_fields_ignored testLib r1 r2 a c b H1 H2 H3 H4 H5 H6 H7).
Defined.

Lemma X2_witness :
  let a0 := golit "data: a\n" in
  let w0 := golit "\n" in
  let a := golit "data: a\n\n" in
  let w := [x0d; x0a] in
  let b := golit "data: b\n\n" in
  let r1 := body (a ++ b) in
  let r2 := body (a ++ w ++ b) in
  progressing r1 /\ progressing r2 /\ final r1 = final r2 /\
  (a = [] \/ exists a0 w0, a = a0 ++ w0 /\ lineClosed a0 /\ blankLine w0) /\
  blankLine w /\
  concat (chunks r1) = a ++ b /\ concat (chunks r2) = a ++ w ++ b /\
  exists tr1 t1 tr2 t2,
    events (newStreamReader r1) = Some (tr1, t1) /\
    events (newStreamReader r2) = Some (tr2, t2) /\
    map fst tr1 = map fst tr2 /\ fst t1 = fst t2.
Proof.
  intros a0 w0 a w b r1 r2.
  assert (H1 : progressing r1) by compute_eq.
  assert (H2 : progressing r2) by compute_eq.
  assert (H3 : final r1 = final r2) by reflexivity.
  assert (H4 : a = [] \/
               exists a0 w0, a = a0 ++ w0 /\ lineClosed a0 /\ blankLine w0).
  { right. exists a0, w0. split; [compute_eq|]. split; [compute_eq|].
    split; [compute_eq | all_lines]. }
  assert (H5 : blankLine w) by (split; [compute_eq | all_lines]).
  assert (H6 : concat (chunks r1) = a ++ b) by compute_eq.
  assert (H7 : concat (chunks r2) = a ++ w ++ b) by compute_eq.
  repeat (split; [assumption|]).
  apply (@X2_stray_blank_lines testLib r1 r2 a w b H1 H2 H3 H4 H5 H6 H7).
Defined.

Lemma X3_witness :
  let a := golit "data: {'choices':[{'delta':{'content':'Hello'}}]}\n" in
  let w := golit "\n" in
  let r1 := body a in
  let r2 := body (a ++ w) in
  progressing r1 /\ progressing r2 /\ final r1 = EOF /\ final r2 = EOF /\
  lineClosed a /\ blankLine w /\
  concat (chunks r1) = a /\ concat (chunks r2) = a ++ w /\
  exists tr1 t1 tr2 t2,
    events (newStreamReader r1) = Some (tr1, t1) /\
    events (newStreamReader r2) = Some (tr2, t2) /\
    map fst tr1 = map fst tr2 /\
    option_map fst (processStream r1 (mkOptions false)) =
    option_map fst (processStream r2 (mkOptions false)).
Proof.
  intros a w r1 r2.
  assert (H1 : progressing r1) by compute_eq.
  assert (H2 : progressing r2) by compute_eq.
  assert (H3 : final r1 = EOF) by reflexivity.
  assert (H4 : final r2 = EOF) by reflexivity.
  assert (H5 : lineClosed a) by compute_eq.
  assert (H6 : blankLine w) by (split; [compute_eq | all_lines]).
  assert (H7 : concat (chunks r1) = a) by compute_eq.
  assert (H8 : concat (chunks r2) = a ++ w) by compute_eq.
  repeat (split; [assumption|]).
  apply (@X3_trailing_blank_line_optional testLib r1 r2 a w (mkOptions false)
           H1 H2 H3 H4 H5 H6 H7 H8).
Defined.

Lemma X4_witness :
  let r := mkReader [golit ": ping\n\n"; golit "event: x\nid: 7\n\n"] EOF 0 in
  progressing r /\
  Forall (fun l => HasPrefix l (bs "data: ") = false)
         (linesOf (concat (chunks r))) /\
  exists t,
    events (newStreamReader r) = Some ([], t) /\
    option_map fst (processStream r (mkOptions false)) =
    Some (EmptyString, if error_eqb (final r) EOF then None else Some (final r)).
Proof.
  intro r.
  assert (H1 : progressing r) by compute_eq.
  assert (H2 : Forall (fun l => HasPrefix l (bs "data: ") = false)
                      (linesOf (concat (chunks r)))) by all_lines.
  split; [exact H1|]. split; [exact H2|].
  apply (@X4_no_data_no_events testLib r (mkOptions false) H1 H2).
Defined.

Lemma X5_witness :
  let a := golit "data: a\n" in
  let c := golit "data:   \n" in
  let b := golit "\n" in
  let r1 := body (a ++ b) in
  let r2 := body (a ++ c ++ b) in
  progressing r1 /\ progressing r2 /\ final r1 = final r2 /\
  lineClosed a /\ emptyDataLine c /\
  concat (chunks r1) = a ++ b /\ concat (chunks r2) = a ++ c ++ b /\
  exists tr1 t1 tr2 t2,
    events (newStreamReader r1) = Some (tr1, t1) /\
    events (newStreamReader r2) = Some (tr2, t2) /\
    map fst tr1 = map fst tr2 /\ fst t1 = fst t2.
Proof.
  intros a c b r1 r2.
  assert (H1 : progressing r1) by compute_eq.
  assert (H2 : progressing r2) by compute_eq.
  assert (H3 : final r1 = final r2) by reflexivity.
  assert (H4 : lineClosed a) by compute_eq.
  assert (H5 : emptyDataLine c)
    by (split; [compute_eq|]; split; [compute_eq | all_lines]).
  assert (H6 : concat (chunks r1) = a ++ b) by compute_eq.
  assert (H7 : concat (chunks r2) = a ++ c ++ b) by compute_eq.
  repeat (split; [assumption|]).
  apply (@X5_empty_data_lines_ignored testLib r1 r2 a c b H1 H2 H3 H4 H5 H6 H7).
Defined.

Lemma X6_witness :
  let a := golit "data: {'choices':[{'delta':{'content':'Hello'}}]}\n" in
  let w := golit "\n" in
  let t2 := golit "data: {'choices':[{'delta':{'content':'!'}}]}\n\n" in
  let r1 := body (a ++ w) in
  let r2 := body t2 in
  let r12 := mkReader [a; w ++ t2] EOF 0 in
  progressing r1 /\ progressing r2 /\ progressing r12 /\
  final r1 = EOF /\ final r12 = final r2 /\
  lineClosed a /\ blankLine w /\
  concat (chunks r1) = a ++ w /\
  concat (chunks r12) = (a ++ w) ++ concat (chunks r2) /\
  exists tr1 t1 tr2 t2 tr12 t12,
    events (newStreamReader r1) = Some (tr1, t1) /\
    events (newStreamReader r2) = Some (tr2, t2) /\
    events (newStreamReader r12) = Some (tr12, t12) /\
    map fst tr12 = map fst tr1 ++ map fst tr2 /\
    fst t12 = fst t2 /\
    (option_map fst (processStream r1 (mkOptions false)) = Some ("Hello"%string, None) ->
     option_map fst (processStream r2 (mkOptions false)) = Some ("!"%string, None) ->
     option_map fst (processStream r12 (mkOptions false)) =
     Some (String.append "Hello" "!", None)).
Proof.
  intros a w t2 r1 r2 r12.
  assert (H1 : progressing r1) by compute_eq.
  assert (H2 : progressing r2) by compute_eq.
  assert (H3 : progressing r12) by compute_eq.
  assert (H4 : final r1 = EOF) by reflexivity.
  assert (H5 : final r12 = final r2) by reflexivity.
  assert (H6 : lineClosed a) by compute_eq.
  assert (H7 : blankLine w) by (split; [compute_eq | all_lines]).
  assert (H8 : concat (chunks r1) = a ++ w) by compute_eq.
  assert (H9 : concat (chunks r12) = (a ++ w) ++ concat (chunks r2))
    by compute_eq.
  repeat (split; [assumption|]).
  apply (@X6_streams_compose_at_event_boundaries testLib r1 r2 r12 a w
           (mkOptions false) "Hello" "!" H1 H2 H3 H4 H5 H6 H7 H8 H9).
Defined.

Lemma X7_witness :
  let ls := [golit "data: ab\n"; golit ": c\n"; golit "\n"] in
  let r1 := body (concat ls) in
  let r2 := body (concat (map crlf ls)) in
  progressing r1 /\ progressing r2 /\ final r1 = final r2 /\
  Forall isLine ls /\ asciiText (concat ls) /\
  concat (chunks r1) = concat ls /\
  concat (chunks r2) = concat (map crlf ls) /\
  exists tr1 t1 tr2 t2,
    events (newStreamReader r1) = Some (tr1, t1) /\
    events (newStreamReader r2) = Some (tr2, t2) /\
    map fst tr1 = map fst tr2 /\ fst t1 = fst t2.
Proof.
  intros ls r1 r2.
  assert (H1 : progressing r1) by compute_eq.
  assert (H2 : progressing r2) by compute_eq.
  assert (H3 : final r1 = final r2) by reflexivity.
  assert (H4 : Forall isLine ls) by all_lines.
  assert (H5 : asciiText (concat ls)) by all_lines.
  assert (H6 : concat (chunks r1) = concat ls) by compute_eq.
  assert (H7 : concat (chunks r2) = concat (map crlf ls)) by compute_eq.
  repeat (split; [assumption|]).
  apply (@X7_crlf_line_endings testLib r1 r2 ls H1 H2 H3 H4 H5 H6 H7).
Defined.

Lemma X8_witness :
  let opts := [Client.WithRetry 3%Z Client.Second;
               Client.WithTemperature 0.5%float;
               Client.WithTemperature 1.5%float; Client.WithTimeout 0%Z;
               Client.WithBaseURL EmptyString; Client.WithStream true] in
  Forall Client.packageOption opts /\
  Client.wellConfigured (Client.applyOptions opts Client.defaultOptions) /\
  (0 <= Client.getMaxRetries
          (Client.Retry (Client.applyOptions opts Client.defaultOptions)))%Z.
Proof.
  intro opts.
  assert (H1 : Forall Client.packageOption opts) by (repeat constructor).
  split; [exact H1|].
  apply (@X8_options_stay_well_configured opts H1).
Defined.

Ltac sends_requests :=
  split; [discriminate|]; split; [discriminate|];
  eexists; split; vm_compute; reflexivity.

Tactic Notation "earlier_retried" integer(k) :=
  let i := fresh "i" in
  let Hi := fresh "Hi" in
  intros i Hi;
  do k (destruct i as [|i]; [vm_compute; discriminate|]);
  exfalso; clear - Hi; lia.

Lemma X9_witness :
  let W := worldOf [Client.DoError "connection refused";
                    responseOf 503 "503 Service Unavailable" [];
                    responseOf 200 "200 OK" []] (inl simpleResponse) in
  let opts := [Client.WithRetry 5%Z Client.Second] in
  (Client.getMaxRetries
     (Client.Retry (Client.applyOptions opts Client.defaultOptions))
   < 2 ^ 31 - 1)%Z /\
  exists res n,
    Client.Completion W "az-gpt-4o" "token" "Hello" opts = Some (res, n) /\
    n <= Z.to_nat (Client.getMaxRetries
                     (Client.Retry (Client.applyOptions opts Client.defaultOptions))
                   + 1) /\
    ("token"%string = EmptyString ->
     res = (EmptyString, Some Client.ErrEmptyToken) /\ n = 0) /\
    ("token"%string <> EmptyString -> "Hello"%string = EmptyString ->
     res = (EmptyString, Some Client.ErrEmptyMessage) /\ n = 0).
Proof.
  intros W opts.
  assert (H1 : (Client.getMaxRetries
                  (Client.Retry (Client.applyOptions opts Client.defaultOptions))
                < 2 ^ 31 - 1)%Z) by compute_eq.
  split; [exact H1|].
  apply (@X9_requests_bounded testLib W "az-gpt-4o" "token" "Hello" opts H1).
Defined.

Lemma X10_witness :
  let resp := {| Client.StatusCode := 401; Client.Status := "401 Unauthorized";
                 Client.Body := body (golit "{'error':'invalid token'}") |} in
  let W := worldOf [Client.DoError "connection refused"; Client.DoResponse resp]
                   (inr "unexpected end of JSON input"%string) in
  let opts := [Client.WithRetry 3%Z Client.Second] in
  let options := Client.applyOptions opts Client.defaultOptions in
  Client.sendsRequests W "az-gpt-4o" "invalid-token" "Hello" opts /\
  (Z.of_nat 1 <= Client.getMaxRetries (Client.Retry options))%Z /\
  (forall i, i < 1 -> Client.failureOf W options (Client.client_Do W i) <> None) /\
  Client.client_Do W 1 = Client.DoResponse resp /\
  Client.StatusCode resp <> Client.StatusOK /\
  Client.shouldRetry (Client.StatusCode resp) = false /\
  Client.Completion W "az-gpt-4o" "invalid-token" "Hello" opts =
    Some ((EmptyString, Some (Client.handleHTTPError (Client.drained resp))), 2) /\
  (Client.StatusCode resp = Client.StatusUnauthorized ->
   Client.handleHTTPError (Client.drained resp) = Client.ErrInvalidToken).
Proof.
  intros resp W opts options.
  assert (H1 : Client.sendsRequests W "az-gpt-4o" "invalid-token" "Hello" opts)
    by sends_requests.
  assert (H2 : (Z.of_nat 1 <= Client.getMaxRetries (Client.Retry options))%Z)
    by (vm_compute; discriminate).
  assert (H3 : forall i, i < 1 ->
                         Client.failureOf W options (Client.client_Do W i) <> None)
    by earlier_retried 1.
  assert (H4 : Client.client_Do W 1 = Client.DoResponse resp) by reflexivity.
  assert (H5 : Client.StatusCode resp <> Client.StatusOK) by discriminate.
  assert (H6 : Client.shouldRetry (Client.StatusCode resp) = false) by reflexivity.
  repeat (split; [assumption|]).
  apply (@X10_final_status_not_retried testLib W "az-gpt-4o" "invalid-token"
           "Hello" opts 1 resp H1 H2 H3 H4 H5 H6).
Defined.

Lemma X11_witness :
  let resp := {| Client.StatusCode := 400; Client.Status := "400 Bad Request";
                 Client.Body := body (golit "{'error':'unknown model'}") |} in
  let W := worldOf [responseOf 503 "503 Service Unavailable" [];
                    Client.DoResponse resp]
                   (inr "unexpected end of JSON input"%string) in
  let opts := [Client.WithRetry 3%Z Client.Second] in
  let options := Client.applyOptions opts Client.defaultOptions in
  Client.sendsRequests W "no-such-model" "token" "Hello" opts /\
  (Z.of_nat 1 <= Client.getMaxRetries (Client.Retry options))%Z /\
  (forall i, i < 1 -> Client.failureOf W options (Client.client_Do W i) <> None) /\
  Client.client_Do W 1 = Client.DoResponse resp /\
  Client.StatusCode resp = Client.StatusBadRequest /\
  Client.Completion W "no-such-model" "token" "Hello" opts =
    Some ((EmptyString,
           Some (Client.Errorf "bad request: %s" [Client.AString EmptyString])),
          2).
Proof.
  intros resp W opts options.
  assert (H1 : Client.sendsRequests W "no-such-model" "token" "Hello" opts)
    by sends_requests.
  assert (H2 : (Z.of_nat 1 <= Client.getMaxRetries (Client.Retry options))%Z)
    by (vm_compute; discriminate).
  assert (H3 : forall i, i < 1 ->
                         Client.failureOf W options (Client.client_Do W i) <> None)
    by earlier_retried 1.
  assert (H4 : Client.client_Do W 1 = Client.DoResponse resp) by reflexivity.
  assert (H5 : Client.StatusCode resp = Client.StatusBadRequest) by reflexivity.
  repeat (split; [assumption|]).
  apply (@X11_bad_request_body_lost testLib W "no-such-model" "token" "Hello"
           opts 1 resp H1 H2 H3 H4 H5).
Defined.

Lemma X12_witness :
  let resp := {| Client.StatusCode := 200; Client.Status := "200 OK";
                 Client.Body := simpleMessage |} in
  let W := worldOf [responseOf 429 "429 Too Many Requests" [];
                    Client.DoResponse resp]
                   (inr "unexpected end of JSON input"%string) in
  let opts := [Client.WithRetry 3%Z Client.Second; Client.WithStream true;
               Client.WithDebug true] in
  let options := Client.applyOptions opts Client.defaultOptions in
  exists s',
    Client.sendsRequests W "llama" "token" "Hello" opts /\
    (Z.of_nat 1 <= Client.getMaxRetries (Client.Retry options))%Z /\
    (forall i, i < 1 -> Client.failureOf W options (Client.client_Do W i) <> None) /\
    Client.client_Do W 1 = Client.DoResponse resp /\
    Client.StatusCode resp = Client.StatusOK /\
    Client.Stream options = true /\
    progressing (Client.Body resp) /\
    processStream (Client.Body resp) (streamOptions false) =
      Some (("Hello World"%string, None), s') /\
    Client.Completion W "llama" "token" "Hello" opts =
      Some (("Hello World"%string, option_map Client.FromStream None), 2).
Proof.
  intros resp W opts options.
  destruct (processStream (Client.Body resp) (streamOptions false))
    as [[[text e] s']|] eqn:E; [|vm_compute in E; discriminate E].
  pose proof E as E'. vm_compute in E'. injection E' as <- <- <-.
  eexists.
  assert (H1 : Client.sendsRequests W "llama" "token" "Hello" opts)
    by sends_requests.
  assert (H2 : (Z.of_nat 1 <= Client.getMaxRetries (Client.Retry options))%Z)
    by (vm_compute; discriminate).
  assert (H3 : forall i, i < 1 ->
                         Client.failureOf W options (Client.client_Do W i) <> None)
    by earlier_retried 1.
  assert (H4 : Client.client_Do W 1 = Client.DoResponse resp) by reflexivity.
  assert (H5 : Client.StatusCode resp = Client.StatusOK) by reflexivity.
  assert (H6 : Client.Stream options = true) by reflexivity.
  assert (H7 : progressing (Client.Body resp)) by compute_eq.
  repeat (split; [assumption|]).
  split; [reflexivity|].
  apply (@X12_stream_result_is_processStream testLib W "llama" "token" "Hello"
           opts 1 resp _ _ _ H1 H2 H3 H4 H5 H6 H7 E).
Defined.

Lemma X13_witness :
  let W := worldOf [Client.DoError "connection refused";
                    responseOf 502 "502 Bad Gateway" [];
                    responseOf 429 "429 Too Many Requests" []]
                   (inr "unexpected end of JSON input"%string) in
  let opts := [Client.WithRetry 2%Z Client.Second] in
  let options := Client.applyOptions opts Client.defaultOptions in
  Client.sendsRequests W "az-gpt-4o" "token" "Hello" opts /\
  Client.getMaxRetries (Client.Retry options) = Z.of_nat 2 /\
  (Z.of_nat 2 < 2 ^ 31 - 1)%Z /\
  (forall i, i <= 2 -> Client.failureOf W options (Client.client_Do W i) <> None) /\
  Client.Completion W "az-gpt-4o" "token" "Hello" opts =
    Some ((EmptyString,
           Some (Client.Errorf "max retries exceeded: %w"
                   [Client.AError (Client.failureOf W options (Client.client_Do W 2))])),
          3).
Proof.
  intros W opts options.
  assert (H1 : Client.sendsRequests W "az-gpt-4o" "token" "Hello" opts)
    by sends_requests.
  assert (H2 : Client.getMaxRetries (Client.Retry options) = Z.of_nat 2)
    by reflexivity.
  assert (H3 : (Z.of_nat 2 < 2 ^ 31 - 1)%Z) by compute_eq.
  assert (H4 : forall i, i <= 2 ->
                         Client.failureOf W options (Client.client_Do W i) <> None)
    by earlier_retried 3.
  repeat (split; [assumption|]).
  apply (@X13_retries_exhausted testLib W "az-gpt-4o" "token" "Hello" opts 2
           H1 H2 H3 H4).
Defined.

Lemma X14_witness :
  let resp := {| Client.StatusCode := 200; Client.Status := "200 OK";
                 Client.Body := body (golit "{'response':{}}") |} in
  let W := worldOf [Client.DoResponse resp] (inl simpleResponse) in
  let opts := @nil Client.Option in
  let options := Client.applyOptions opts Client.defaultOptions in
  Client.sendsRequests W "az-gpt-4o" "token" "Hello" opts /\
  (Z.of_nat 0 <= Client.getMaxRetries (Client.Retry options))%Z /\
  (forall i, i < 0 -> Client.failureOf W options (Client.client_Do W i) <> None) /\
  Client.client_Do W 0 = Client.DoResponse resp /\
  Client.StatusCode resp = Client.StatusOK /\
  Client.Stream options = false /\
  Client.json_Decode W (Client.Body resp) = inl simpleResponse /\
  Client.Completion W "az-gpt-4o" "token" "Hello" opts =
    Some (match Client.Choices simpleResponse with
          | c :: _ => (Client.MsgContent (Client.Message c), None)
          | [] => (EmptyString, Some (Client.Errorf "no content in response" []))
          end, 1).
Proof.
  intros resp W opts options.
  assert (H1 : Client.sendsRequests W "az-gpt-4o" "token" "Hello" opts)
    by sends_requests.
  assert (H2 : (Z.of_nat 0 <= Client.getMaxRetries (Client.Retry options))%Z)
    by (vm_compute; discriminate).
  assert (H3 : forall i, i < 0 ->
                         Client.failureOf W options (Client.client_Do W i) <> None)
    by earlier_retried 0.
  assert (H4 : Client.client_Do W 0 = Client.DoResponse resp) by reflexivity.
  assert (H5 : Client.StatusCode resp = Client.StatusOK) by reflexivity.
  assert (H6 : Client.Stream options = false) by reflexivity.
  assert (H7 : Client.json_Decode W (Client.Body resp) = inl simpleResponse)
    by reflexivity.
  repeat (split; [assumption|]).
  apply (@X14_first_choice_returned testLib W "az-gpt-4o" "token" "Hello" opts 0
           resp simpleResponse H1 H2 H3 H4 H5 H6 H7).
Defined.

Lemma X15_witness :
  let resp := {| Client.StatusCode := 400; Client.Status := "400 Bad Request";
                 Client.Body := mkReader [bs "unknown "; bs "field"] EOF 0 |} in
  let W := worldOf [Client.DoError "connection refused"; Client.DoResponse resp]
                   (inr "unexpected end of JSON input"%string) in
  let opts := [Client.WithRetry 2%Z Client.Second] in
  let options := Client.applyOptions opts Client.defaultOptions in
  "token"%string <> EmptyString /\
  Client.http_NewRequest W (String.append (Client.BaseURL options) "/models")
                         (bs "{}") = None /\
  (Z.of_nat 1 <= Client.getMaxRetries (Client.Retry options))%Z /\
  (forall i, i < 1 -> Client.modelFailureOf W (Client.client_Do W i) <> None) /\
  Client.client_Do W 1 = Client.DoResponse resp /\
  Client.StatusCode resp = Client.StatusBadRequest /\
  Client.ListModels W "token"%string opts =
    (([], Some (Client.Errorf "bad request: %s"
                  [Client.AString
                     (string_of_list_byte (concat (chunks (Client.Body resp))))])),
     2).
Proof.
  intros resp W opts options.
  assert (H1 : "token"%string <> EmptyString) by discriminate.
  assert (H2 : Client.http_NewRequest W
                 (String.append (Client.BaseURL options) "/models") (bs "{}") = None)
    by reflexivity.
  assert (H3 : (Z.of_nat 1 <= Client.getMaxRetries (Client.Retry options))%Z)
    by (vm_compute; discriminate).
  assert (H4 : forall i, i < 1 ->
                         Client.modelFailureOf W (Client.client_Do W i) <> None)
    by earlier_retried 1.
  assert (H5 : Client.client_Do W 1 = Client.DoResponse resp) by reflexivity.
  assert (H6 : Client.StatusCode resp = Client.StatusBadRequest) by reflexivity.
  repeat (split; [assumption|]).
  apply (@X15_list_models_bad_request_keeps_body W "token"%string opts 1 resp
           H1 H2 H3 H4 H5 H6).
Defined.

Lemma X16_witness :
  let resp := {| Client.StatusCode := 201; Client.Status := "201 Created";
                 Client.Body := body (golit "[{'models':[]}]") |} in
  let W := worldOf [responseOf 500 "500 Internal Server Error" [];
                    Client.DoResponse resp]
                   (inr "unexpected end of JSON input"%string) in
  let opts := [Client.WithRetry 2%Z Client.Second] in
  let options := Client.applyOptions opts Client.defaultOptions in
  "token"%string <> EmptyString /\
  Client.http_NewRequest W (String.append (Client.BaseURL options) "/models")
                         (bs "{}") = None /\
  (Z.of_nat 1 <= Client.getMaxRetries (Client.Retry options))%Z /\
  (forall i, i < 1 -> Client.modelFailureOf W (Client.client_Do W i) <> None) /\
  Client.client_Do W 1 = Client.DoResponse resp /\
  (Client.StatusCode resp = Client.StatusOK \/
   Client.StatusCode resp = Client.StatusCreated) /\
  Client.json_DecodeModels W (Client.Body resp) = inl testModels /\
  exists models,
    Client.ListModels W "token"%string opts = ((models, None), 2) /\
    map Client.Name models =
    concat (map (fun p => map Client.EntryName (Client.Models p)) testModels).
Proof.
  intros resp W opts options.
  assert (H1 : "token"%string <> EmptyString) by discriminate.
  assert (H2 : Client.http_NewRequest W
                 (String.append (Client.BaseURL options) "/models") (bs "{}") = None)
    by reflexivity.
  assert (H3 : (Z.of_nat 1 <= Client.getMaxRetries (Client.Retry options))%Z)
    by (vm_compute; discriminate).
  assert (H4 : forall i, i < 1 ->
                         Client.modelFailureOf W (Client.client_Do W i) <> None)
    by earlier_retried 1.
  assert (H5 : Client.client_Do W 1 = Client.DoResponse resp) by reflexivity.
  assert (H6 : Client.StatusCode resp = Client.StatusOK \/
               Client.StatusCode resp = Client.StatusCreated)
    by (right; reflexivity).
  assert (H7 : Client.json_DecodeModels W (Client.Body resp) = inl testModels)
    by reflexivity.
  repeat (split; [assumption|]).
  apply (@X16_list_models_names_in_order W "token"%string opts 1 resp testModels
           H1 H2 H3 H4 H5 H6 H7).
Defined.
